(** * ThinkStats2, chapter 8: the estimation game

    A shallow embedding of the functions of [code/chap08ex.ipynb] that the
    specification talks about:

    - [SimulateGame], the bounded-interval event simulator;
    - [RMSE] and [MeanError], the summary statistics;
    - [Estimate1], the evaluation harness for the sample mean and median;
    - [Estimate2], [SimulateSample] and [Estimate4], the other experiments
      that sample and collect estimates.

    Two models are used.  In the first, Python floats are idealised as
    exact numbers: the simulator only adds and compares, so its clock lives
    in [Q] and the model runs by evaluation; [RMSE] takes a square root, so
    the statistics live in [R], extended with the [NaN] that numpy returns
    for the mean of an empty slice.  What is proved there is true of exact
    arithmetic, and of the code wherever rounding cannot interfere.  In the
    second, [Simulator64] and [Stats64], floats are the binary64 doubles of
    the code, with every operation rounded: it is the model of the
    properties that depend on rounding. *)

From Stdlib Require Import String.
From Stdlib Require Import List ZArith QArith Lia Lqa.
From Stdlib Require Import Reals Lra.
From Stdlib Require Import Permutation.
From Stdlib Require Floats.
Import ListNotations.

(** ** The event simulator *)

Module Simulator.

Local Open Scope Q_scope.

(** The Python comparison [x > y] on the clock. *)
Definition Qgtb (x y : Q) : bool := negb (Qle_bool x y).

Section Game.

(** [random.expovariate] reads the hidden generator of the [random]
    module.  A run of the simulator sees it as the stream of values its
    successive calls return: call number [k] (from 0) with rate [lam]
    returns [expovariate lam k].  The stream describes the runs in which
    every call returns; the library raises on a zero rate before any gap is
    drawn. *)
Variable expovariate : Q -> nat -> Q.

(** The rate [lam] the game is simulated with. *)
Variable lam : Q.

(** The [while True] loop of [SimulateGame].  The loop state is the pair
    of locals [goals] and [t] together with the number of draws made so
    far; [fuel] bounds the number of iterations.  On [break] the function
    returns [L = goals]; the number of draws is returned with it. *)
Fixpoint SimulateGame_loop (fuel : nat) (goals : Z) (t : Q) (draws : nat)
  : option (Z * nat) :=
  match fuel with
  | O => None
  | S fuel' =>
      let time_between_goals := expovariate lam draws in
      let t := t + time_between_goals in
      if Qgtb t 1 then Some (goals, S draws)
      else SimulateGame_loop fuel' (goals + 1)%Z t (S draws)
  end.

(** [goals = 0], [t = 0], then the loop. *)
Definition SimulateGame_run (fuel : nat) : option (Z * nat) :=
  SimulateGame_loop fuel 0%Z 0 O.

(** The value [SimulateGame(lam)] returns. *)
Definition SimulateGame (fuel : nat) : option Z :=
  option_map fst (SimulateGame_run fuel).

(** Elapsed time after [k] draws: the value of [t] after [k] executions of
    [t += time_between_goals]. *)
Fixpoint elapsed (k : nat) : Q :=
  match k with
  | O => 0
  | S k' => elapsed k' + expovariate lam k'
  end.

(** The partial sums of the gap stream grow without bound. *)
Definition unbounded_sums : Prop :=
  forall B : Q, exists k : nat, B < elapsed k.

(** Every drawn gap is strictly positive. *)
Definition positive_gaps : Prop :=
  forall k : nat, 0 < expovariate lam k.

End Game.

(** Fixed generators, as a test would mock [random.expovariate]: one that
    always returns 1, one that always returns 0.5 and one that always
    returns 2. *)
Definition unit_gaps : Q -> nat -> Q := fun _ _ => 1.
Definition half_gaps : Q -> nat -> Q := fun _ _ => 1 # 2.
Definition long_gaps : Q -> nat -> Q := fun _ _ => 2.

End Simulator.

(** ** Values and results *)

Module Py.

(** A Python call either returns a value or raises an exception.
    [InvalidArgument] is the error condition the specification names. *)
Inductive exception : Type :=
| InvalidArgument
| ZeroDivisionError.

Inductive result (A : Type) : Type :=
| Returns (a : A)
| Raises (e : exception).

Arguments Returns {A} a.
Arguments Raises {A} e.

(** A float of the statistics code: an exact real, or the [nan] that numpy
    produces for [0.0 / 0] and propagates through arithmetic. *)
Inductive npfloat : Type :=
| Finite (r : R)
| NaN.

Local Open Scope R_scope.

(** [a - b] *)
Definition fsub (a b : npfloat) : npfloat :=
  match a, b with
  | Finite x, Finite y => Finite (x - y)
  | _, _ => NaN
  end.

(** [a + b] *)
Definition fadd (a b : npfloat) : npfloat :=
  match a, b with
  | Finite x, Finite y => Finite (x + y)
  | _, _ => NaN
  end.

(** [a ** 2] *)
Definition fpow2 (a : npfloat) : npfloat :=
  match a with
  | Finite x => Finite (x ^ 2)
  | NaN => NaN
  end.

(** [np.add.reduce]: the sum of a sequence, from the left. *)
Definition np_sum (xs : list npfloat) : npfloat :=
  fold_left fadd xs (Finite 0).

(** [np.mean]: the sum divided by the number of items.  On an empty
    sequence numpy divides [0.0] by [0], warns ("Mean of empty slice") and
    returns [nan]; it does not raise. *)
Definition np_mean (xs : list npfloat) : npfloat :=
  match xs with
  | [] => NaN
  | _ :: _ =>
      match np_sum xs with
      | Finite s => Finite (s / INR (length xs))
      | NaN => NaN
      end
  end.

(** [np.sqrt]: [nan] (with a warning) below zero. *)
Definition np_sqrt (a : npfloat) : npfloat :=
  match a with
  | Finite x => if Rlt_dec x 0 then NaN else Finite (sqrt x)
  | NaN => NaN
  end.

(** The reals of a sequence without [nan], [None] when it holds one. *)
Fixpoint finite_values (xs : list npfloat) : option (list R) :=
  match xs with
  | [] => Some []
  | Finite x :: xs' => option_map (cons x) (finite_values xs')
  | NaN :: _ => None
  end.

(** Sorting, for the median. *)
Fixpoint insert_sorted (x : R) (l : list R) : list R :=
  match l with
  | [] => [x]
  | y :: l' => if Rle_dec x y then x :: l else y :: insert_sorted x l'
  end.

Definition sorted (l : list R) : list R := fold_right insert_sorted [] l.

(** [np.median]: the middle item of the sorted sequence, the mean of the
    two middle items when the length is even; [nan] on an empty sequence
    and on one that holds a [nan]. *)
Definition np_median (xs : list npfloat) : npfloat :=
  match finite_values xs with
  | None => NaN
  | Some [] => NaN
  | Some rs =>
      let s := sorted rs in
      let n := length s in
      if Nat.even n
      then Finite ((nth (n / 2 - 1) s 0 + nth (n / 2) s 0) / 2)
      else Finite (nth (n / 2) s 0)
  end.

End Py.

(** ** The summary statistics *)

Module Stats.

Import Py.
Local Open Scope R_scope.

(** The local [e2] of [RMSE]. *)
Definition squared_errors (estimates : list npfloat) (actual : npfloat)
  : list npfloat :=
  map (fun estimate => fpow2 (fsub estimate actual)) estimates.

(** The local [mse] of [RMSE]: the mean squared error. *)
Definition mse (estimates : list npfloat) (actual : npfloat) : npfloat :=
  let e2 := squared_errors estimates actual in
  np_mean e2.

(** [RMSE(estimates, actual)]. *)
Definition RMSE (estimates : list npfloat) (actual : npfloat)
  : result npfloat :=
  let mse := mse estimates actual in
  Returns (np_sqrt mse).

(** [MeanError(estimates, actual)]. *)
Definition MeanError (estimates : list npfloat) (actual : npfloat)
  : result npfloat :=
  let errors := map (fun estimate => fsub estimate actual) estimates in
  Returns (np_mean errors).

(** The mean squared error in the words of the specification: the
    arithmetic mean of the squared differences [(estimate - actual)^2]. *)
Definition sum_of (f : R -> R) (xs : list R) : R :=
  fold_right (fun x acc => f x + acc) 0 xs.

Definition mean_of_squared_differences (xs : list R) (actual : R) : R :=
  sum_of (fun x => (x - actual) * (x - actual)) xs / INR (length xs).

(** The mean error in the same words: the arithmetic mean of
    [estimate - actual]. *)
Definition mean_of_differences (xs : list R) (actual : R) : R :=
  sum_of (fun x => x - actual) xs / INR (length xs).

End Stats.

(** ** The evaluation harness *)

Module Harness.

Import Py Stats.
Local Open Scope R_scope.

(** A line written by [print]: the label and, when there is one, the
    number printed after it. *)
Definition line : Type := (string * option npfloat)%type.

(** What the loop of [Estimate1] carries from one trial to the next: the
    two lists it appends to and the number of draws made so far. *)
Record collections : Type := Collections {
  means : list npfloat;
  medians : list npfloat;
  draws : nat
}.

Section Experiment.

(** [random.gauss] reads the hidden generator of the [random] module:
    call number [k] (from 0) returns [gauss mu sigma k]. *)
Variable gauss : R -> R -> nat -> R.

(** The indices [for _ in range(k)] runs through; none when [k < 0]. *)
Definition range (k : Z) : list nat := seq 0 (Z.to_nat k).

(** [[random.gauss(mu, sigma) for _ in range(n)]], from draw number
    [first] on. *)
Definition sample (mu sigma : R) (n : Z) (first : nat) : list npfloat :=
  map (fun i => Finite (gauss mu sigma (first + i))) (range n).

(** One pass through the body of the [for] loop of [Estimate1]. *)
Definition Estimate1_trial (mu sigma : R) (n : Z) (c : collections)
  : collections :=
  let xs := sample mu sigma n (draws c) in
  let xbar := np_mean xs in
  let median := np_median xs in
  {| means := means c ++ [xbar];
     medians := medians c ++ [median];
     draws := (draws c + length xs)%nat |}.

(** [means = []], [medians = []] and the [for] loop. *)
Definition Estimate1_loop (mu sigma : R) (n iters : Z) : collections :=
  fold_left (fun c _ => Estimate1_trial mu sigma n c) (range iters)
    {| means := []; medians := []; draws := O |}.

(** [Estimate1(n, iters)]: the lines it prints. *)
Definition Estimate1 (n iters : Z) : result (list line) :=
  let mu := 0 in
  let sigma := 1 in
  let c := Estimate1_loop mu sigma n iters in
  match RMSE (means c) (Finite mu) with
  | Raises e => Raises e
  | Returns rmse_xbar =>
      match RMSE (medians c) (Finite mu) with
      | Raises e => Raises e
      | Returns rmse_median =>
          Returns [("Experiment 1"%string, None);
                   ("rmse xbar"%string, Some rmse_xbar);
                   ("rmse median"%string, Some rmse_median)]
      end
  end.

(** The sample of trial [j]: draws [j * n], ..., [j * n + n - 1]. *)
Definition trial_sample (mu sigma : R) (n : Z) (j : nat) : list npfloat :=
  sample mu sigma n (j * Z.to_nat n).

End Experiment.

(** A fixed generator, as a test would mock [random.gauss]: call number [k]
    returns [k]. *)
Definition counting_gauss : R -> R -> nat -> R := fun _ _ k => INR k.

End Harness.

(** ** Further fixed generators *)

Module Mocks.

(** A generator of [random.expovariate] that always returns 0. *)
Definition zero_gaps : Q -> nat -> Q := fun _ _ => 0%Q.

(** A generator of [np.random.exponential] that always returns 1. *)
Definition unit_draws : R -> nat -> R := fun _ _ => 1%R.

End Mocks.

(** ** More of numpy *)

Module Numpy.

Import Py.
Local Open Scope R_scope.

(** The squared deviations [abs(x - x.mean())**2] that [np.var] sums. *)
Definition squared_deviations (xs : list npfloat) : list npfloat :=
  let arrmean := np_mean xs in
  map (fun x => fpow2 (fsub x arrmean)) xs.

(** [np.var(xs)]: the sum of the squared deviations divided by the number
    of items; [nan] on an empty sequence, as [np.mean]. *)
Definition np_var (xs : list npfloat) : npfloat :=
  np_mean (squared_deviations xs).

(** [np.var(xs, ddof=1)]: the same sum divided by [max(n - 1, 0)].  With at
    most one item the divisor is 0 and so is the sum (a single item is its
    own mean): numpy divides [0.0] by [0], warns and returns [nan]. *)
Definition np_var_ddof1 (xs : list npfloat) : npfloat :=
  match np_sum (squared_deviations xs) with
  | NaN => NaN
  | Finite s =>
      let rcount := (length xs - 1)%nat in
      match rcount with
      | O => NaN
      | S _ => Finite (s / INR rcount)
      end
  end.

(** A call of a numpy sampler returns an array or raises [ValueError]. *)
Inductive sampled (A : Type) : Type :=
| Array (a : A)
| ValueError.

Arguments Array {A} a.
Arguments ValueError {A}.

(** A float that may also be an infinity, as [1 / x] is for a numpy zero.
    The sign of the infinity, that of the zero, is not kept. *)
Inductive npfloat_inf : Type :=
| Num (x : npfloat)
| Inf.

(** [1 / x] for a numpy float [x]. *)
Definition reciprocal (x : npfloat) : npfloat_inf :=
  match x with
  | Finite r => if Req_dec_T r 0 then Inf else Num (Finite (1 / r))
  | NaN => Num NaN
  end.

(** A float argument of which numpy inspects the sign bit.  The reals have
    one zero and the doubles have two: [negative] is the sign bit and
    [magnitude] the absolute value, so that -0.0 is
    [{| negative := true; magnitude := 0 |}]. *)
Record signed_float : Type := SignedFloat {
  negative : bool;
  magnitude : R
}.

(** The real a signed float stands for. *)
Definition real_of (x : signed_float) : R :=
  if negative x then - Rabs (magnitude x) else Rabs (magnitude x).

Section Samplers.

(** The generator of [np.random]: call number [k] (from 0) of
    [np.random.normal(loc, scale)] returns [normal loc scale k], and that of
    [np.random.exponential(scale)] returns [exponential scale k]; a call
    with a size makes that many draws. *)
Variable normal : R -> R -> nat -> R.
Variable exponential : R -> nat -> R.

(** [np.random.normal(loc, scale, size)], from draw number [first] on.  A
    scale whose sign bit is set ([np.signbit(scale)], true of -0.0 too) and
    a negative size are refused. *)
Definition np_random_normal (loc : R) (scale : signed_float) (size : Z)
  (first : nat) : sampled (list npfloat) :=
  if negative scale then ValueError
  else if (size <? 0)%Z then ValueError
  else Array (map (fun i => Finite (normal loc (real_of scale) (first + i)))
                  (seq 0 (Z.to_nat size))).

(** [np.random.exponential(scale, size)], from draw number [first] on. *)
Definition np_random_exponential (scale : R) (size : Z) (first : nat)
  : sampled (list npfloat) :=
  if Rlt_dec scale 0 then ValueError
  else if (size <? 0)%Z then ValueError
  else Array (map (fun i => Finite (exponential scale (first + i)))
                  (seq 0 (Z.to_nat size))).

End Samplers.

End Numpy.

(** ** The other experiments *)

Module Experiments.

Import Py Stats Harness Numpy.
Local Open Scope R_scope.

(** What the loop of [Estimate2] carries: the two lists it appends to and
    the number of draws made so far. *)
Record variance_estimates : Type := VarianceEstimates {
  estimates1 : list npfloat;
  estimates2 : list npfloat;
  gauss_draws : nat
}.

Section Variance.

Variable gauss : R -> R -> nat -> R.

(** One pass through the body of the [for] loop of [Estimate2]. *)
Definition Estimate2_trial (mu sigma : R) (n : Z) (c : variance_estimates)
  : variance_estimates :=
  let xs := sample gauss mu sigma n (gauss_draws c) in
  let biased := np_var xs in
  let unbiased := np_var_ddof1 xs in
  {| estimates1 := estimates1 c ++ [biased];
     estimates2 := estimates2 c ++ [unbiased];
     gauss_draws := (gauss_draws c + length xs)%nat |}.

(** [estimates1 = []], [estimates2 = []] and the [for] loop. *)
Definition Estimate2_loop (mu sigma : R) (n iters : Z) : variance_estimates :=
  fold_left (fun c _ => Estimate2_trial mu sigma n c) (range iters)
    {| estimates1 := []; estimates2 := []; gauss_draws := O |}.

(** [Estimate2(n, iters)]: the lines it prints. *)
Definition Estimate2 (n iters : Z) : result (list line) :=
  let mu := 0 in
  let sigma := 1 in
  let c := Estimate2_loop mu sigma n iters in
  match MeanError (estimates1 c) (Finite (sigma ^ 2)) with
  | Raises e => Raises e
  | Returns biased =>
      match MeanError (estimates2 c) (Finite (sigma ^ 2)) with
      | Raises e => Raises e
      | Returns unbiased =>
          Returns [("mean error biased"%string, Some biased);
                   ("mean error unbiased"%string, Some unbiased)]
      end
  end.

End Variance.

Section Sampling.

Variable normal : R -> R -> nat -> R.
Variable exponential : R -> nat -> R.

(** The [for] loop of [SimulateSample] over the indices [js] still to run,
    with the list [xbars] and the number of draws made so far. *)
Fixpoint SimulateSample_loop (mu : R) (sigma : signed_float) (n : Z)
  (js : list nat) (xbars : list npfloat) (first : nat)
  : sampled (list npfloat) :=
  match js with
  | [] => Array xbars
  | _ :: js' =>
      match np_random_normal normal mu sigma n first with
      | ValueError => ValueError
      | Array xs =>
          let xbar := np_mean xs in
          SimulateSample_loop mu sigma n js' (xbars ++ [xbar])
            (first + length xs)%nat
      end
  end.

(** [SimulateSample(mu, sigma, n, iters)]. *)
Definition SimulateSample (mu : R) (sigma : signed_float) (n iters : Z)
  : sampled (list npfloat) :=
  SimulateSample_loop mu sigma n (range iters) [] O.

(** The [for] loop of [Estimate4], in the same way. *)
Fixpoint Estimate4_loop (lam : R) (n : Z) (js : list nat)
  (l_estimates : list npfloat_inf) (first : nat)
  : sampled (list npfloat_inf) :=
  match js with
  | [] => Array l_estimates
  | _ :: js' =>
      match np_random_exponential exponential (1 / lam) n first with
      | ValueError => ValueError
      | Array xs =>
          let L := reciprocal (np_mean xs) in
          Estimate4_loop lam n js' (l_estimates ++ [L])
            (first + length xs)%nat
      end
  end.

(** [Estimate4(n, iters)]. *)
Definition Estimate4 (n iters : Z) : sampled (list npfloat_inf) :=
  let lam := 2 in
  Estimate4_loop lam n (range iters) [] O.

(** The variance of a list of reals about its own mean, in plain words:
    the arithmetic mean of the squared differences from the mean. *)
Definition variance_of (rs : list R) : R :=
  mean_of_squared_differences rs (sum_of (fun x => x) rs / INR (length rs)).

(** The draws of trial [j] of a loop that makes [n] draws a trial. *)
Definition block (draw : nat -> R) (n : Z) (j : nat) : list R :=
  map (fun i => draw (j * Z.to_nat n + i)%nat) (seq 0 (Z.to_nat n)).

End Sampling.

End Experiments.

(** ** The event simulator on binary64 floats *)

Module Simulator64.

Import Stdlib.Floats.Floats.

(** The rational a finite float stands for (0 for an infinity and for
    [nan]). *)
Definition exact (x : float) : Q :=
  match Prim2SF x with
  | S754_finite s m e =>
      ((if s then -1 else 1) * inject_Z (Zpos m) * Qpower 2 e)%Q
  | _ => 0%Q
  end.

Section Game64.

(** [random.expovariate] as a stream of doubles: call number [k] (from 0)
    with rate [lam] returns [expovariate lam k]. *)
Variable expovariate : float -> nat -> float.
Variable lam : float.

(** The [while True] loop of [SimulateGame] with the clock [t] a double:
    [t += time_between_goals] rounds to the nearest double and [t > 1] is
    the comparison of doubles, false on [nan]. *)
Fixpoint SimulateGame_loop (fuel : nat) (goals : Z) (t : float) (draws : nat)
  : option (Z * nat) :=
  match fuel with
  | O => None
  | S fuel' =>
      let time_between_goals := expovariate lam draws in
      let t := (t + time_between_goals)%float in
      if (1 <? t)%float then Some (goals, S draws)
      else SimulateGame_loop fuel' (goals + 1)%Z t (S draws)
  end.

(** [goals = 0], [t = 0], then the loop. *)
Definition SimulateGame_run (fuel : nat) : option (Z * nat) :=
  SimulateGame_loop fuel 0%Z 0%float O.

(** The value [SimulateGame(lam)] returns. *)
Definition SimulateGame (fuel : nat) : option Z :=
  option_map fst (SimulateGame_run fuel).

(** The clock after [k] draws: the double [t] holds after [k] executions
    of [t += time_between_goals]. *)
Fixpoint clock (k : nat) : float :=
  match k with
  | O => 0%float
  | S k' => (clock k' + expovariate lam k')%float
  end.

(** The same gaps as exact rationals, a stream for [Simulator.elapsed]. *)
Definition exact_gaps : Q -> nat -> Q := fun _ k => exact (expovariate lam k).

End Game64.

(** Fixed generators: 1.0 followed by gaps of 2^-60; 1.0, 2^-60 and then
    gaps of 5.0; and the double nearest 0.1 at every draw. *)
Definition absorbed_gaps : float -> nat -> float :=
  fun _ k => match k with O => 1%float | S _ => 0x1p-60%float end.

Definition crossing_gaps : float -> nat -> float :=
  fun _ k =>
    match k with
    | O => 1%float
    | S O => 0x1p-60%float
    | S (S _) => 5%float
    end.

Definition tenth_gaps : float -> nat -> float :=
  fun _ _ => 0x1.999999999999ap-4%float.

(** A generator that always returns [nan], as [random.expovariate] does
    for a rate that is [nan]. *)
Definition nan_gaps : float -> nat -> float := fun _ _ => PrimFloat.nan.

End Simulator64.

(** ** The root mean squared error on binary64 floats *)

Module Stats64.

Import Stdlib.Floats.Floats.

(** A computation on Python floats returns or raises [OverflowError]. *)
Inductive raising (A : Type) : Type :=
| Done (a : A)
| OverflowError.

Arguments Done {A} a.
Arguments OverflowError {A}.

(** [x ** 2] for a Python float: the double nearest the square (the C
    library's [pow], taken as correctly rounded for the exponent 2), and
    [OverflowError] when a finite [x] has a square beyond the doubles. *)
Definition float_pow2 (x : float) : raising float :=
  let y := (x * x)%float in
  if is_finite x && is_infinity y then OverflowError else Done y.

(** The list [e2] of [RMSE]; the first square that overflows raises. *)
Fixpoint squared_errors (estimates : list float) (actual : float)
  : raising (list float) :=
  match estimates with
  | [] => Done []
  | estimate :: rest =>
      match float_pow2 (estimate - actual)%float with
      | OverflowError => OverflowError
      | Done e =>
          match squared_errors rest actual with
          | OverflowError => OverflowError
          | Done es => Done (e :: es)
          end
      end
  end.

(** The number of items of a short array, as a double. *)
Definition count (xs : list float) : float :=
  PrimFloat.of_uint63 (Uint63.of_Z (Z.of_nat (length xs))).

(** [np.mean] of an array of fewer than eight doubles: numpy adds them in
    order, from 0, and divides by their number; on the empty array that is
    [0.0 / 0], [nan].  Longer arrays are added pairwise, in blocks, which
    is not modelled: [None]. *)
Definition np_mean (xs : list float) : option float :=
  if (length xs <? 8)%nat
  then Some (fold_left PrimFloat.add xs 0 / count xs)%float
  else None.

(** The local [mse] of [RMSE]. *)
Definition mse (estimates : list float) (actual : float)
  : option (raising float) :=
  match squared_errors estimates actual with
  | OverflowError => Some OverflowError
  | Done e2 => option_map Done (np_mean e2)
  end.

(** [RMSE(estimates, actual)] on Python floats; [np.sqrt] is the correctly
    rounded square root. *)
Definition RMSE (estimates : list float) (actual : float)
  : option (raising float) :=
  match mse estimates actual with
  | Some (Done mse) => Some (Done (PrimFloat.sqrt mse))
  | Some OverflowError => Some OverflowError
  | None => None
  end.

End Stats64.

(** * Properties *)

(** ** The event simulator *)

Module SimulatorFacts.

Import Simulator.
Import Lqa.
Local Open Scope Q_scope.

Lemma Qgtb_true (x y : Q) : Qgtb x y = true <-> y < x.
Proof.
  unfold Qgtb. rewrite Bool.negb_true_iff.
  split; intro H.
  - apply Qnot_le_lt. intro Hle. apply Qle_bool_iff in Hle. congruence.
  - destruct (Qle_bool x y) eqn:E; [|reflexivity].
    apply Qle_bool_iff in E. exfalso. apply (Qlt_not_le _ _ H E).
Qed.

Lemma Qgtb_false (x y : Q) : Qgtb x y = false <-> x <= y.
Proof.
  unfold Qgtb. rewrite Bool.negb_false_iff. apply Qle_bool_iff.
Qed.

Section Runs.

Variable expovariate : Q -> nat -> Q.
Variable lam : Q.

(** The count only grows along the loop. *)
Lemma loop_count_grows (fuel : nat) :
  forall goals t draws L n,
    SimulateGame_loop expovariate lam fuel goals t draws = Some (L, n) -> (goals <= L)%Z.
Proof.
  induction fuel as [|fuel IH]; intros goals t draws L n; simpl.
  - discriminate.
  - destruct (Qgtb _ 1).
    + intros [= <- _]. lia.
    + intros H. apply IH in H. lia.
Qed.

(** The loop draws at least once. *)
Lemma loop_draws_grow (fuel : nat) :
  forall goals t draws L n,
    SimulateGame_loop expovariate lam fuel goals t draws = Some (L, n) -> (draws < n)%nat.
Proof.
  induction fuel as [|fuel IH]; intros goals t draws L n; simpl.
  - discriminate.
  - destruct (Qgtb _ 1).
    + intros [= _ <-]. lia.
    + intros H. apply IH in H. lia.
Qed.

(** Started after [k] counted draws, the loop runs to the first draw that
    takes the clock over 1. *)
Lemma loop_runs_to_crossing (fuel : nat) :
  forall k m,
    (k <= m < k + fuel)%nat ->
    (forall j, (k < j <= m)%nat -> elapsed expovariate lam j <= 1) ->
    1 < elapsed expovariate lam (S m) ->
    SimulateGame_loop expovariate lam fuel (Z.of_nat k) (elapsed expovariate lam k) k = Some (Z.of_nat m, S m).
Proof.
  induction fuel as [|fuel IH]; intros k m Hkm Hbelow Hover.
  - lia.
  - cbn [SimulateGame_loop].
    change (elapsed expovariate lam k + expovariate lam k) with (elapsed expovariate lam (S k)).
    destruct (Nat.eq_dec k m) as [->|Hne].
    + apply Qgtb_true in Hover. rewrite Hover. reflexivity.
    + assert (Hk : elapsed expovariate lam (S k) <= 1) by (apply Hbelow; lia).
      apply Qgtb_false in Hk. rewrite Hk.
      replace (Z.of_nat k + 1)%Z with (Z.of_nat (S k)) by lia.
      apply IH; [lia| |exact Hover].
      intros j Hj. apply Hbelow. lia.
Qed.

(** Either the clock stays within 1 up to draw [n], or there is a first
    draw that takes it over. *)
Lemma first_crossing (n : nat) :
  (forall j, (j <= n)%nat -> elapsed expovariate lam j <= 1) \/
  (exists m, (m < n)%nat /\ 1 < elapsed expovariate lam (S m) /\
             forall j, (j <= m)%nat -> elapsed expovariate lam j <= 1).
Proof.
  induction n as [|n [IH|IH]].
  - left. intros j Hj. replace j with O by lia. simpl. lra.
  - destruct (Qlt_le_dec 1 (elapsed expovariate lam (S n))) as [Hover|Hle].
    + right. exists n. repeat split; [lia|exact Hover|exact IH].
    + left. intros j Hj.
      destruct (Nat.eq_dec j (S n)) as [->|Hne]; [exact Hle|].
      apply IH. lia.
  - right. destruct IH as (m & Hm & Hover & Hbelow).
    exists m. repeat split; [lia|exact Hover|exact Hbelow].
Qed.

(** Once the clock has gone past 1 the run returns, with any fuel that
    covers the draws. *)
Lemma run_returns_at_crossing (n : nat) :
  1 < elapsed expovariate lam n ->
  exists m, (m < n)%nat /\ 1 < elapsed expovariate lam (S m) /\
            (forall j, (j <= m)%nat -> elapsed expovariate lam j <= 1) /\
            forall fuel, (S m <= fuel)%nat ->
              SimulateGame_run expovariate lam fuel = Some (Z.of_nat m, S m).
Proof.
  intros Hn.
  destruct (first_crossing n) as [Hall|(m & Hm & Hover & Hbelow)].
  - exfalso. apply (Qlt_not_le _ _ Hn). apply Hall. lia.
  - exists m. repeat split; try assumption.
    intros fuel Hfuel. unfold SimulateGame_run.
    apply (loop_runs_to_crossing fuel O m); [lia| |exact Hover].
    intros j Hj. apply Hbelow. lia.
Qed.

(** With positive gaps the clock is strictly increasing. *)
Lemma time_increasing :
  positive_gaps expovariate lam ->
  forall j k, (j < k)%nat -> elapsed expovariate lam j < elapsed expovariate lam k.
Proof.
  intros Hpos j k Hjk. induction Hjk as [|k Hjk IH]; simpl.
  - specialize (Hpos j). lra.
  - specialize (Hpos k). lra.
Qed.

End Runs.

(** The clock of a generator that always returns [g]. *)
Lemma elapsed_constant (expovariate : Q -> nat -> Q) (lam g : Q) :
  (forall k, expovariate lam k == g) ->
  forall k, elapsed expovariate lam k == inject_Z (Z.of_nat k) * g.
Proof.
  intros Hg k. induction k as [|k IH].
  - cbn [elapsed Z.of_nat]. ring.
  - cbn [elapsed]. rewrite IH, Hg, Nat2Z.inj_succ.
    unfold Z.succ. rewrite inject_Z_plus. ring.
Qed.

(** Every rational lies below some natural number. *)
Lemma Q_below_nat (B : Q) : exists k : nat, B < inject_Z (Z.of_nat k).
Proof.
  destruct B as [p q].
  exists (S (Z.to_nat (Z.abs p))).
  unfold Qlt, inject_Z. cbn [Qnum Qden].
  rewrite Nat2Z.inj_succ, Z2Nat.id by lia.
  nia.
Qed.

Lemma unit_gaps_positive (lam : Q) : positive_gaps unit_gaps lam.
Proof. intros k. unfold unit_gaps. lra. Qed.

Lemma unit_gaps_unbounded (lam : Q) : unbounded_sums unit_gaps lam.
Proof.
  intros B. destruct (Q_below_nat B) as [k Hk]. exists k.
  rewrite (elapsed_constant unit_gaps lam 1) by (intros; reflexivity).
  lra.
Qed.

(** Runs of the fixed generators. *)
Example half_gaps_run : SimulateGame_run half_gaps 2 3 = Some (2%Z, 3%nat).
Proof. reflexivity. Qed.

Example half_gaps_third_draw_needed : SimulateGame_run half_gaps 2 2 = None.
Proof. reflexivity. Qed.

Example unit_gaps_run : SimulateGame_run unit_gaps 2 2 = Some (1%Z, 2%nat).
Proof. reflexivity. Qed.

Example long_gaps_run : SimulateGame_run long_gaps 2 1 = Some (0%Z, 1%nat).
Proof. reflexivity. Qed.

(** C1, as the specification words it: a generator whose every gap is 0.5
    makes [SimulateGame] return 1.  It does not: the run with [half_gaps]
    returns 2. *)
Lemma SimulateGame_half_gaps_is_not_1 :
  ~ (forall fuel L, SimulateGame half_gaps 2 fuel = Some L -> L = 1%Z).
Proof.
  intros H. specialize (H 3%nat 2%Z eq_refl). discriminate H.
Qed.

(** C1, amended: when every drawn gap is 0.5 the simulator returns exactly
    2, after exactly three draws.  The first two gaps bring the clock to 0.5
    and 1.0, neither above 1, and each is counted; the third brings it to
    1.5 and ends the loop. *)
Theorem SimulateGame_half_gaps_returns_2 :
  forall (expovariate : Q -> nat -> Q) (lam : Q),
    (forall k, expovariate lam k == 1 # 2) ->
    forall fuel, (3 <= fuel)%nat ->
      SimulateGame_run expovariate lam fuel = Some (2%Z, 3%nat) /\
      SimulateGame expovariate lam fuel = Some 2%Z.
Proof.
  intros expovariate lam Hg fuel Hfuel.
  assert (Hrun : SimulateGame_run expovariate lam fuel = Some (2%Z, 3%nat)).
  { unfold SimulateGame_run.
    apply (loop_runs_to_crossing expovariate lam fuel 0 2); [lia| |].
    - intros j Hj. rewrite (elapsed_constant _ _ _ Hg).
      assert (Hc : j = 1%nat \/ j = 2%nat) by lia.
      destruct Hc as [-> | ->]; reflexivity || discriminate.
    - rewrite (elapsed_constant _ _ _ Hg). reflexivity. }
  split; [exact Hrun|].
  unfold SimulateGame. rewrite Hrun. reflexivity.
Qed.

Lemma SimulateGame_half_gaps_returns_2_witness :
  (forall k, half_gaps 2 k == 1 # 2) /\ (3 <= 3)%nat /\
  SimulateGame_run half_gaps 2 3 = Some (2%Z, 3%nat) /\
  SimulateGame half_gaps 2 3 = Some 2%Z.
Proof.
  assert (Hg : forall k, half_gaps 2 k == 1 # 2) by (intros k; reflexivity).
  split; [exact Hg|].
  split; [apply le_n|].
  apply (SimulateGame_half_gaps_returns_2 half_gaps 2 Hg 3%nat (le_n 3)).
Defined.

(** C2: when the very first drawn gap exceeds 1, [SimulateGame] returns 0. *)
Theorem SimulateGame_first_gap_over_1 :
  forall (expovariate : Q -> nat -> Q) (lam : Q) (fuel : nat),
    1 < expovariate lam 0%nat ->
    SimulateGame expovariate lam (S fuel) = Some 0%Z.
Proof.
  intros expovariate lam fuel Hgap.
  unfold SimulateGame, SimulateGame_run. cbn [SimulateGame_loop].
  assert (Hover : Qgtb (0 + expovariate lam 0%nat) 1 = true).
  { apply Qgtb_true. lra. }
  rewrite Hover. reflexivity.
Qed.

Lemma SimulateGame_first_gap_over_1_witness :
  1 < long_gaps 3 0 /\ SimulateGame long_gaps 3 1 = Some 0%Z.
Proof.
  assert (Hgap : 1 < long_gaps 3 0) by reflexivity.
  split; [exact Hgap|].
  apply (SimulateGame_first_gap_over_1 long_gaps 3 0 Hgap).
Defined.

(** C3: whatever the rate and the gap stream, a value returned by
    [SimulateGame] is a non-negative integer. *)
Theorem SimulateGame_nonnegative :
  forall (expovariate : Q -> nat -> Q) (lam : Q) (fuel : nat) (L : Z),
    SimulateGame expovariate lam fuel = Some L -> (0 <= L)%Z.
Proof.
  intros expovariate lam fuel L. unfold SimulateGame, SimulateGame_run.
  destruct (SimulateGame_loop expovariate lam fuel 0 0 0) as [[L' n]|] eqn:E;
    cbn [option_map fst]; [|discriminate].
  intros [= <-]. apply (loop_count_grows _ _ _ _ _ _ _ _ E).
Qed.

Lemma SimulateGame_nonnegative_witness :
  SimulateGame unit_gaps 2 5 = Some 1%Z /\ (0 <= 1)%Z.
Proof.
  assert (Hrun : SimulateGame unit_gaps 2 5 = Some 1%Z) by reflexivity.
  split; [exact Hrun|].
  apply (SimulateGame_nonnegative unit_gaps 2 5 1 Hrun).
Defined.

End SimulatorFacts.

(** ** The summary statistics *)

Module StatsFacts.

Import Py Stats.
Import Lra.
Local Open Scope R_scope.

Lemma sum_of_cons (f : R -> R) (x : R) (xs : list R) :
  sum_of f (x :: xs) = f x + sum_of f xs.
Proof. reflexivity. Qed.

(** Summing finite floats from the left is the real sum. *)
Lemma fold_fadd_finite (f : R -> R) (xs : list R) :
  forall acc,
    fold_left fadd (map (fun x => Finite (f x)) xs) (Finite acc)
    = Finite (acc + sum_of f xs).
Proof.
  induction xs as [|x xs IH]; intros acc; simpl.
  - f_equal. lra.
  - rewrite IH. f_equal. lra.
Qed.

Lemma np_mean_finite (f : R -> R) (xs : list R) :
  xs <> [] ->
  np_mean (map (fun x => Finite (f x)) xs)
  = Finite (sum_of f xs / INR (length xs)).
Proof.
  intros Hne. destruct xs as [|x xs]; [congruence|].
  unfold np_mean, np_sum.
  change (map (fun x0 => Finite (f x0)) (x :: xs))
    with (Finite (f x) :: map (fun x0 => Finite (f x0)) xs) at 1.
  cbv iota. rewrite fold_fadd_finite, length_map.
  f_equal. f_equal. lra.
Qed.

Lemma sum_of_nonneg (f : R -> R) (xs : list R) :
  (forall x, 0 <= f x) -> 0 <= sum_of f xs.
Proof.
  intros Hf. induction xs as [|x xs IH]; [simpl; lra|].
  rewrite sum_of_cons. specialize (Hf x). lra.
Qed.

Lemma sum_of_ext (f g : R -> R) (xs : list R) :
  (forall x, f x = g x) -> sum_of f xs = sum_of g xs.
Proof.
  intros Hfg. induction xs as [|x xs IH]; [reflexivity|].
  rewrite !sum_of_cons, IH, Hfg. reflexivity.
Qed.

Lemma INR_length_pos (A : Type) (xs : list A) : xs <> [] -> 0 < INR (length xs).
Proof.
  intros Hne. destruct xs as [|x xs]; [congruence|].
  apply lt_0_INR. simpl. lia.
Qed.

(** On finite estimates the code's [mse] is the mean of the squared
    differences, a real that is not negative. *)
Lemma mse_finite (xs : list R) (a : R) :
  xs <> [] ->
  mse (map Finite xs) (Finite a) = Finite (mean_of_squared_differences xs a).
Proof.
  intros Hne. unfold mse, squared_errors. rewrite map_map. cbn [fsub fpow2].
  rewrite (np_mean_finite (fun x => (x - a) ^ 2)) by exact Hne.
  unfold mean_of_squared_differences. f_equal. f_equal.
  apply sum_of_ext. intros x. ring.
Qed.

Lemma mean_of_squared_differences_nonneg (xs : list R) (a : R) :
  xs <> [] -> 0 <= mean_of_squared_differences xs a.
Proof.
  intros Hne. unfold mean_of_squared_differences.
  apply Rmult_le_pos.
  - apply sum_of_nonneg. intros x. apply Rle_0_sqr.
  - apply Rlt_le, Rinv_0_lt_compat, INR_length_pos, Hne.
Qed.

Lemma np_sqrt_nonneg (x : R) : 0 <= x -> np_sqrt (Finite x) = Finite (sqrt x).
Proof.
  intros Hx. unfold np_sqrt. destruct (Rlt_dec x 0) as [Hlt|_]; [lra|reflexivity].
Qed.

Lemma RMSE_finite (xs : list R) (a : R) :
  xs <> [] ->
  RMSE (map Finite xs) (Finite a)
  = Returns (Finite (sqrt (mean_of_squared_differences xs a))).
Proof.
  intros Hne. unfold RMSE. rewrite mse_finite by exact Hne.
  rewrite np_sqrt_nonneg by (apply mean_of_squared_differences_nonneg, Hne).
  reflexivity.
Qed.

Lemma MeanError_finite (xs : list R) (a : R) :
  xs <> [] ->
  MeanError (map Finite xs) (Finite a)
  = Returns (Finite (mean_of_differences xs a)).
Proof.
  intros Hne. unfold MeanError. rewrite map_map. cbn [fsub].
  rewrite (np_mean_finite (fun x => x - a)) by exact Hne.
  reflexivity.
Qed.

(** Estimates that all equal a finite [actual] are finite. *)
Lemma all_equal_finite (a : R) (estimates : list npfloat) :
  Forall (fun estimate => estimate = Finite a) estimates ->
  exists xs, estimates = map Finite xs /\ Forall (fun x => x = a) xs.
Proof.
  induction 1 as [|e es He _ (xs & -> & Hxs)].
  - exists []. split; [reflexivity|constructor].
  - exists (a :: xs). subst e. split; [reflexivity|]. constructor; auto.
Qed.

Lemma sum_of_zero (f : R -> R) (a : R) (xs : list R) :
  f a = 0 -> Forall (fun x => x = a) xs -> sum_of f xs = 0.
Proof.
  intros Hf. induction 1 as [|x xs -> _ IH]; [reflexivity|].
  rewrite sum_of_cons, IH, Hf. lra.
Qed.

(** The sum of squares around any centre [c], expanded. *)
Lemma sum_of_squares_around (a c : R) (xs : list R) :
  sum_of (fun x => (x - a - c) * (x - a - c)) xs
  = sum_of (fun x => (x - a) * (x - a)) xs
    - 2 * c * sum_of (fun x => x - a) xs
    + INR (length xs) * (c * c).
Proof.
  induction xs as [|x xs IH].
  - simpl. lra.
  - rewrite !sum_of_cons, IH. cbn [length]. rewrite S_INR. lra.
Qed.

(** The squared mean error is at most the mean squared error. *)
Lemma squared_mean_le_mean_of_squares (xs : list R) (a : R) :
  xs <> [] ->
  Rsqr (mean_of_differences xs a) <= mean_of_squared_differences xs a.
Proof.
  intros Hne.
  pose proof (INR_length_pos _ xs Hne) as Hn.
  unfold mean_of_differences, mean_of_squared_differences, Rsqr.
  set (n := INR (length xs)) in *.
  set (S1 := sum_of (fun x => x - a) xs).
  set (S2 := sum_of (fun x => (x - a) * (x - a)) xs).
  assert (Hsq : 0 <= S2 - 2 * (S1 / n) * S1 + n * (S1 / n * (S1 / n))).
  { unfold S1, S2, n. rewrite <- sum_of_squares_around.
    apply sum_of_nonneg. intros x. apply Rle_0_sqr. }
  assert (Hcancel : n * (S1 / n * (S1 / n)) = S1 / n * S1) by (field; lra).
  rewrite Hcancel in Hsq.
  assert (Hle : S1 / n * S1 <= S2) by lra.
  apply Rmult_le_reg_l with (r := n); [exact Hn|].
  replace (n * (S1 / n * (S1 / n))) with (S1 / n * S1) by (symmetry; exact Hcancel).
  replace (n * (S2 / n)) with S2 by (field; lra).
  exact Hle.
Qed.

(** C4, as the specification words it: on an empty estimates collection
    the mean squared error, and with it [RMSE], raises InvalidArgument.  It
    does not: [RMSE] returns a value there, numpy's [nan]. *)
Lemma RMSE_empty_does_not_raise :
  RMSE [] (Finite 0) = Returns NaN /\
  RMSE [] (Finite 0) <> Raises InvalidArgument.
Proof.
  split; [reflexivity|discriminate].
Qed.

(** C4, amended: on an empty estimates collection nothing is raised; the
    mean squared error is [nan] and [RMSE] returns [nan], whatever the
    actual value. *)
Theorem RMSE_empty_returns_nan :
  forall actual : npfloat,
    mse [] actual = NaN /\ RMSE [] actual = Returns NaN.
Proof.
  intros actual. split; reflexivity.
Qed.



(** C6: for a non-empty collection in which every estimate equals the
    actual value, [MeanError] and [RMSE] both return exactly 0. *)
Theorem exact_estimates_have_zero_error :
  forall (a : R) (estimates : list npfloat),
    estimates <> [] ->
    Forall (fun estimate => estimate = Finite a) estimates ->
    MeanError estimates (Finite a) = Returns (Finite 0) /\
    RMSE estimates (Finite a) = Returns (Finite 0).
Proof.
  intros a estimates Hne Hall.
  destruct (all_equal_finite a estimates Hall) as (xs & -> & Hxs).
  assert (Hxne : xs <> []) by (intros ->; apply Hne; reflexivity).
  split.
  - rewrite MeanError_finite by exact Hxne.
    unfold mean_of_differences.
    rewrite (sum_of_zero _ a xs) by (exact Hxs || lra).
    do 2 f_equal. unfold Rdiv. apply Rmult_0_l.
  - rewrite RMSE_finite by exact Hxne.
    unfold mean_of_squared_differences.
    rewrite (sum_of_zero _ a xs) by (exact Hxs || lra).
    do 2 f_equal. unfold Rdiv. rewrite Rmult_0_l. apply sqrt_0.
Qed.

Lemma exact_estimates_have_zero_error_witness :
  [Finite 5; Finite 5; Finite 5] <> [] /\
  Forall (fun estimate => estimate = Finite 5)
    [Finite 5; Finite 5; Finite 5] /\
  MeanError [Finite 5; Finite 5; Finite 5] (Finite 5) = Returns (Finite 0) /\
  RMSE [Finite 5; Finite 5; Finite 5] (Finite 5) = Returns (Finite 0).
Proof.
  assert (Hne : [Finite 5; Finite 5; Finite 5] <> []) by discriminate.
  assert (Hall : Forall (fun estimate => estimate = Finite 5)
                   [Finite 5; Finite 5; Finite 5])
    by (repeat constructor).
  split; [exact Hne|].
  split; [exact Hall|].
  apply (exact_estimates_have_zero_error 5 _ Hne Hall).
Defined.

(** C10: for a non-empty collection of (finite) estimates and any actual
    value, in exact real arithmetic, the value of [RMSE] is at least the
    absolute value of that of [MeanError]; in particular it is not
    negative. *)
Theorem RMSE_bounds_MeanError :
  forall (xs : list R) (a : R),
    xs <> [] ->
    exists r m : R,
      RMSE (map Finite xs) (Finite a) = Returns (Finite r) /\
      MeanError (map Finite xs) (Finite a) = Returns (Finite m) /\
      Rabs m <= r /\ 0 <= r.
Proof.
  intros xs a Hne.
  exists (sqrt (mean_of_squared_differences xs a)), (mean_of_differences xs a).
  split; [apply RMSE_finite, Hne|].
  split; [apply MeanError_finite, Hne|].
  split; [|apply sqrt_pos].
  rewrite <- sqrt_Rsqr_abs.
  apply sqrt_le_1_alt, squared_mean_le_mean_of_squares, Hne.
Qed.

Lemma RMSE_bounds_MeanError_witness :
  [1; 4] <> [] /\
  exists r m : R,
    RMSE (map Finite [1; 4]) (Finite 2) = Returns (Finite r) /\
    MeanError (map Finite [1; 4]) (Finite 2) = Returns (Finite m) /\
    Rabs m <= r /\ 0 <= r.
Proof.
  assert (Hne : [1; 4] <> []) by discriminate.
  split; [exact Hne|].
  apply (RMSE_bounds_MeanError [1; 4] 2 Hne).
Defined.

End StatsFacts.

(** ** The evaluation harness *)

Module HarnessFacts.

Import Py Stats Harness.
Local Open Scope nat_scope.

Section Trials.

Variable gauss : R -> R -> nat -> R.
Variables mu sigma : R.
Variable n : Z.

Lemma length_sample (first : nat) :
  length (sample gauss mu sigma n first) = Z.to_nat n.
Proof.
  unfold sample, range. rewrite length_map, length_seq. reflexivity.
Qed.

(** What a run of trials adds to the collections it starts from: trial
    [j] of the run reads the [n] draws that follow those of the trials
    before it, and both estimates are taken from that one sample. *)
Lemma trials_append (l : list nat) :
  forall c : collections,
    let c' := fold_left (fun c _ => Estimate1_trial gauss mu sigma n c) l c in
    means c' =
      means c ++
      map (fun j => np_mean (sample gauss mu sigma n (draws c + j * Z.to_nat n)))
          (seq 0 (length l)) /\
    medians c' =
      medians c ++
      map (fun j => np_median (sample gauss mu sigma n (draws c + j * Z.to_nat n)))
          (seq 0 (length l)) /\
    draws c' = draws c + length l * Z.to_nat n.
Proof.
  induction l as [|x l IH]; intros c; cbn [fold_left length].
  - cbn [seq map]. rewrite !app_nil_r. repeat split. lia.
  - destruct (IH (Estimate1_trial gauss mu sigma n c)) as (Hmeans & Hmedians & Hdraws).
    cbn zeta in *. rewrite Hmeans, Hmedians, Hdraws.
    cbn [Estimate1_trial means medians draws]. rewrite length_sample.
    rewrite <- !app_assoc. cbn [app seq map].
    rewrite <- seq_shift, !map_map, Nat.add_0_r.
    repeat split; [| |lia].
    + do 2 f_equal. apply map_ext. intros j. do 2 f_equal. lia.
    + do 2 f_equal. apply map_ext. intros j. do 2 f_equal. lia.
Qed.

End Trials.

(** C7: [Estimate1] runs [iters] trials; trial [j] draws one sample of
    size [n], made of draws that no other trial reads, and appends the mean
    and the median of that same sample; after the loop both collections
    have length exactly [iters] and [n * iters] draws have been made. *)
Theorem Estimate1_one_sample_per_trial :
  forall (gauss : R -> R -> nat -> R) (mu sigma : R) (n iters : Z),
    (0 <= n)%Z -> (0 <= iters)%Z ->
    let c := Estimate1_loop gauss mu sigma n iters in
    Z.of_nat (length (means c)) = iters /\
    Z.of_nat (length (medians c)) = iters /\
    Z.of_nat (draws c) = (iters * n)%Z /\
    forall j : nat, (Z.of_nat j < iters)%Z ->
      let xs := trial_sample gauss mu sigma n j in
      Z.of_nat (length xs) = n /\
      xs = map (fun i => Finite (gauss mu sigma (j * Z.to_nat n + i)))
               (seq 0 (Z.to_nat n)) /\
      nth_error (means c) j = Some (np_mean xs) /\
      nth_error (medians c) j = Some (np_median xs).
Proof.
  intros gauss mu sigma n iters Hn Hiters c.
  destruct (trials_append gauss mu sigma n (range iters)
              {| means := []; medians := []; draws := O |})
    as (Hmeans & Hmedians & Hdraws).
  cbn zeta in *. fold (Estimate1_loop gauss mu sigma n iters) in *. fold c in Hmeans, Hmedians, Hdraws.
  cbn [means medians draws app Nat.add] in Hmeans, Hmedians, Hdraws.
  assert (Hlen : length (range iters) = Z.to_nat iters)
    by (unfold range; apply length_seq).
  rewrite Hlen in *.
  split; [|split; [|split]].
  - rewrite Hmeans, length_map, length_seq. lia.
  - rewrite Hmedians, length_map, length_seq. lia.
  - rewrite Hdraws. lia.
  - intros j Hj. split; [|split; [|split]].
    + unfold trial_sample. rewrite length_sample. lia.
    + reflexivity.
    + rewrite Hmeans. unfold trial_sample.
      apply (map_nth_error (fun j => np_mean (sample gauss mu sigma n (j * Z.to_nat n)))).
      rewrite nth_error_seq.
      destruct (Nat.ltb_spec j (Z.to_nat iters)); [reflexivity|lia].
    + rewrite Hmedians. unfold trial_sample.
      apply (map_nth_error (fun j => np_median (sample gauss mu sigma n (j * Z.to_nat n)))).
      rewrite nth_error_seq.
      destruct (Nat.ltb_spec j (Z.to_nat iters)); [reflexivity|lia].
Qed.

Lemma Estimate1_one_sample_per_trial_witness :
  (0 <= 2)%Z /\ (0 <= 3)%Z /\
  let c := Estimate1_loop counting_gauss 0 1 2 3 in
  Z.of_nat (length (means c)) = 3%Z /\
  Z.of_nat (length (medians c)) = 3%Z /\
  Z.of_nat (draws c) = (3 * 2)%Z /\
  forall j : nat, (Z.of_nat j < 3)%Z ->
    let xs := trial_sample counting_gauss 0 1 2 j in
    Z.of_nat (length xs) = 2%Z /\
    xs = map (fun i => Finite (counting_gauss 0 1 (j * Z.to_nat 2 + i)))
             (seq 0 (Z.to_nat 2)) /\
    nth_error (means c) j = Some (np_mean xs) /\
    nth_error (medians c) j = Some (np_median xs).
Proof.
  assert (Hn : (0 <= 2)%Z) by discriminate.
  assert (Hiters : (0 <= 3)%Z) by discriminate.
  split; [exact Hn|].
  split; [exact Hiters|].
  apply (Estimate1_one_sample_per_trial counting_gauss 0 1 2 3 Hn Hiters).
Defined.

End HarnessFacts.

(** ** More on the event simulator *)

Module SimulatorMore.

Import Simulator SimulatorFacts Mocks.
Import Lqa.
Local Open Scope Q_scope.

Section Returns.

Variable expovariate : Q -> nat -> Q.
Variable lam : Q.

(** A loop that returns has stopped at the first draw, after those already
    made, that takes the clock over 1, and has counted every draw before
    it. *)
Lemma loop_returns_at_crossing (fuel : nat) :
  forall (k : nat) (L : Z) (d : nat),
    SimulateGame_loop expovariate lam fuel (Z.of_nat k)
      (elapsed expovariate lam k) k = Some (L, d) ->
    Z.of_nat d = (L + 1)%Z /\
    (k < d)%nat /\
    1 < elapsed expovariate lam d /\
    forall j, (k < j < d)%nat -> elapsed expovariate lam j <= 1.
Proof.
  induction fuel as [|fuel IH]; intros k L d; cbn [SimulateGame_loop].
  - discriminate.
  - change (elapsed expovariate lam k + expovariate lam k)
      with (elapsed expovariate lam (S k)).
    destruct (Qgtb (elapsed expovariate lam (S k)) 1) eqn:E.
    + intros [= <- <-]. apply Qgtb_true in E.
      split; [lia|]. split; [lia|]. split; [exact E|].
      intros j Hj. lia.
    + apply Qgtb_false in E.
      replace (Z.of_nat k + 1)%Z with (Z.of_nat (S k)) by lia.
      intros H. apply IH in H. destruct H as (HL & Hk & Hover & Hbelow).
      split; [exact HL|]. split; [lia|]. split; [exact Hover|].
      intros j Hj.
      destruct (Nat.eq_dec j (S k)) as [->|Hne]; [exact E|].
      apply Hbelow. lia.
Qed.

(** With gaps of at least [g] the clock after [k] draws is at least
    [k * g]. *)
Lemma elapsed_at_least (g : Q) :
  (forall k, g <= expovariate lam k) ->
  forall k, inject_Z (Z.of_nat k) * g <= elapsed expovariate lam k.
Proof.
  intros Hg k. induction k as [|k IH].
  - cbn [elapsed Z.of_nat]. setoid_replace (inject_Z 0 * g) with 0 by ring.
    apply Qle_refl.
  - cbn [elapsed]. rewrite Nat2Z.inj_succ. unfold Z.succ.
    rewrite inject_Z_plus.
    setoid_replace ((inject_Z (Z.of_nat k) + inject_Z 1) * g)
      with (inject_Z (Z.of_nat k) * g + g) by ring.
    apply Qplus_le_compat; [exact IH|apply Hg].
Qed.

(** With gaps that are not negative the clock never goes back. *)
Lemma elapsed_monotone :
  (forall k, 0 <= expovariate lam k) ->
  forall j k, (j <= k)%nat ->
    elapsed expovariate lam j <= elapsed expovariate lam k.
Proof.
  intros Hpos j k Hjk. induction Hjk as [|k Hjk IH].
  - apply Qle_refl.
  - cbn [elapsed]. specialize (Hpos k). lra.
Qed.

End Returns.

Lemma SimulateGame_run_of (expovariate : Q -> nat -> Q) (lam : Q)
  (fuel : nat) (L : Z) :
  SimulateGame expovariate lam fuel = Some L ->
  exists d, SimulateGame_run expovariate lam fuel = Some (L, d).
Proof.
  unfold SimulateGame.
  destruct (SimulateGame_run expovariate lam fuel) as [[L' d]|];
    cbn [option_map fst]; [|discriminate].
  intros [= <-]. exists d. reflexivity.
Qed.

Lemma elapsed_pointwise (e1 e2 : Q -> nat -> Q) (l1 l2 : Q) :
  (forall k, e1 l1 k <= e2 l2 k) ->
  forall k, elapsed e1 l1 k <= elapsed e2 l2 k.
Proof.
  intros Hle k. induction k as [|k IH]; cbn [elapsed].
  - apply Qle_refl.
  - apply Qplus_le_compat; [exact IH|apply Hle].
Qed.

Lemma zero_gaps_elapsed (lam : Q) (k : nat) : elapsed zero_gaps lam k <= 1.
Proof.
  rewrite (elapsed_constant zero_gaps lam 0) by (intros; reflexivity).
  setoid_replace (inject_Z (Z.of_nat k) * 0) with 0 by ring.
  discriminate.
Qed.

(** In exact arithmetic: whenever [SimulateGame] returns, it has drawn
    exactly one more gap than it counted, and that last draw is the first
    one to take the elapsed time over 1. *)
Lemma SimulateGame_returns_first_crossing :
  forall (expovariate : Q -> nat -> Q) (lam : Q) (fuel : nat) (L : Z) (d : nat),
    SimulateGame_run expovariate lam fuel = Some (L, d) ->
    Z.of_nat d = (L + 1)%Z /\
    1 < elapsed expovariate lam d /\
    forall j, (j < d)%nat -> elapsed expovariate lam j <= 1.
Proof.
  intros expovariate lam fuel L d Hrun.
  destruct (loop_returns_at_crossing expovariate lam fuel 0 L d Hrun)
    as (HL & _ & Hover & Hbelow).
  split; [exact HL|]. split; [exact Hover|].
  intros j Hj. destruct j as [|j]; [discriminate|].
  apply Hbelow. lia.
Qed.

(** X3: when no drawn gap is positive, as with a negative rate, the loop
    of [SimulateGame] never ends: no number of iterations returns. *)
Theorem SimulateGame_never_returns :
  forall (expovariate : Q -> nat -> Q) (lam : Q),
    (forall k, expovariate lam k <= 0) ->
    forall fuel, SimulateGame expovariate lam fuel = None.
Proof.
  intros expovariate lam Hneg fuel.
  destruct (SimulateGame expovariate lam fuel) as [L|] eqn:E; [|reflexivity].
  exfalso.
  destruct (SimulateGame_run_of _ _ _ _ E) as [d Hrun].
  destruct (SimulateGame_returns_first_crossing _ _ _ _ _ Hrun)
    as (_ & Hover & _).
  apply (Qlt_not_le _ _ Hover).
  apply Qle_trans with (y := elapsed zero_gaps lam d).
  - apply elapsed_pointwise. intros k. apply Hneg.
  - apply zero_gaps_elapsed.
Qed.

Lemma SimulateGame_never_returns_witness :
  (forall k, zero_gaps (-2) k <= 0) /\ SimulateGame zero_gaps (-2) 100 = None.
Proof.
  assert (Hneg : forall k, zero_gaps (-2) k <= 0) by (intros k; discriminate).
  split; [exact Hneg|].
  apply (SimulateGame_never_returns zero_gaps (-2) Hneg 100).
Defined.

(** X4: in exact arithmetic (the clock accumulated without rounding),
    when every gap is at least [g > 0], the count [SimulateGame] returns,
    times [g], is at most 1: no more than [1 / g] events fit. *)
Theorem SimulateGame_count_bounded :
  forall (expovariate : Q -> nat -> Q) (lam g : Q) (fuel : nat) (L : Z),
    0 < g ->
    (forall k, g <= expovariate lam k) ->
    SimulateGame expovariate lam fuel = Some L ->
    inject_Z L * g <= 1.
Proof.
  intros expovariate lam g fuel L Hg Hgaps HL.
  destruct (SimulateGame_run_of _ _ _ _ HL) as [d Hrun].
  destruct (SimulateGame_returns_first_crossing _ _ _ _ _ Hrun)
    as (Hd & _ & Hbelow).
  pose proof (loop_draws_grow _ _ _ _ _ _ _ _ Hrun) as Hdraws.
  destruct d as [|d]; [lia|].
  replace L with (Z.of_nat d) by lia.
  apply Qle_trans with (y := elapsed expovariate lam d).
  - apply elapsed_at_least, Hgaps.
  - apply Hbelow. lia.
Qed.

Lemma SimulateGame_count_bounded_witness :
  0 < 1 # 2 /\ (forall k, 1 # 2 <= half_gaps 2 k) /\
  SimulateGame half_gaps 2 3 = Some 2%Z /\
  inject_Z 2 * (1 # 2) <= 1.
Proof.
  assert (Hg : 0 < 1 # 2) by reflexivity.
  assert (Hgaps : forall k, 1 # 2 <= half_gaps 2 k) by (intros k; discriminate).
  assert (HL : SimulateGame half_gaps 2 3 = Some 2%Z) by reflexivity.
  split; [exact Hg|]. split; [exact Hgaps|]. split; [exact HL|].
  apply (SimulateGame_count_bounded half_gaps 2 (1 # 2) 3 2 Hg Hgaps HL).
Defined.

(** X5: in exact arithmetic (the clock accumulated without rounding),
    when every gap is at least [g] and [N * g > 1], [SimulateGame] returns
    within [N] draws: [N] iterations are always enough. *)
Theorem SimulateGame_returns_within :
  forall (expovariate : Q -> nat -> Q) (lam g : Q) (N : nat),
    (forall k, g <= expovariate lam k) ->
    1 < inject_Z (Z.of_nat N) * g ->
    exists (L : Z) (d : nat),
      (d <= N)%nat /\
      forall fuel, (N <= fuel)%nat ->
        SimulateGame_run expovariate lam fuel = Some (L, d) /\
        SimulateGame expovariate lam fuel = Some L.
Proof.
  intros expovariate lam g N Hgaps HN.
  assert (Hover : 1 < elapsed expovariate lam N).
  { apply Qlt_le_trans with (1 := HN). apply elapsed_at_least, Hgaps. }
  destruct (run_returns_at_crossing expovariate lam N Hover)
    as (m & Hm & _ & _ & Hrun).
  exists (Z.of_nat m), (S m). split; [lia|].
  intros fuel Hfuel.
  assert (Hr := Hrun fuel ltac:(lia)).
  split; [exact Hr|].
  unfold SimulateGame. rewrite Hr. reflexivity.
Qed.

Lemma SimulateGame_returns_within_witness :
  (forall k, 1 # 2 <= half_gaps 2 k) /\
  1 < inject_Z (Z.of_nat 3) * (1 # 2) /\
  exists (L : Z) (d : nat),
    (d <= 3)%nat /\
    forall fuel, (3 <= fuel)%nat ->
      SimulateGame_run half_gaps 2 fuel = Some (L, d) /\
      SimulateGame half_gaps 2 fuel = Some L.
Proof.
  assert (Hgaps : forall k, 1 # 2 <= half_gaps 2 k) by (intros k; discriminate).
  assert (HN : 1 < inject_Z (Z.of_nat 3) * (1 # 2)) by reflexivity.
  split; [exact Hgaps|]. split; [exact HN|].
  apply (SimulateGame_returns_within half_gaps 2 (1 # 2) 3 Hgaps HN).
Defined.

(** X6: longer gaps give no more events.  When the gaps of a second run
    are, draw by draw, at least as long as those of a first, the second run
    returns a count that is at most the first. *)
Theorem SimulateGame_antitone_in_gaps :
  forall (e1 e2 : Q -> nat -> Q) (l1 l2 : Q) (fuel1 fuel2 : nat) (L1 L2 : Z),
    (forall k, e1 l1 k <= e2 l2 k) ->
    SimulateGame e1 l1 fuel1 = Some L1 ->
    SimulateGame e2 l2 fuel2 = Some L2 ->
    (L2 <= L1)%Z.
Proof.
  intros e1 e2 l1 l2 fuel1 fuel2 L1 L2 Hle H1 H2.
  destruct (SimulateGame_run_of _ _ _ _ H1) as [d1 Hrun1].
  destruct (SimulateGame_run_of _ _ _ _ H2) as [d2 Hrun2].
  destruct (SimulateGame_returns_first_crossing _ _ _ _ _ Hrun1)
    as (Hd1 & Hover1 & _).
  destruct (SimulateGame_returns_first_crossing _ _ _ _ _ Hrun2)
    as (Hd2 & _ & Hbelow2).
  destruct (Z.le_gt_cases L2 L1) as [Hok|Hgt]; [exact Hok|].
  exfalso. apply (Qlt_not_le _ _ Hover1).
  assert (Hd : (d1 < d2)%nat) by lia.
  apply Qle_trans with (y := elapsed e2 l2 d1).
  - apply elapsed_pointwise, Hle.
  - apply Hbelow2, Hd.
Qed.

Lemma SimulateGame_antitone_in_gaps_witness :
  (forall k, half_gaps 2 k <= unit_gaps 2 k) /\
  SimulateGame half_gaps 2 3 = Some 2%Z /\
  SimulateGame unit_gaps 2 3 = Some 1%Z /\
  (1 <= 2)%Z.
Proof.
  assert (Hle : forall k, half_gaps 2 k <= unit_gaps 2 k)
    by (intros k; discriminate).
  assert (H1 : SimulateGame half_gaps 2 3 = Some 2%Z) by reflexivity.
  assert (H2 : SimulateGame unit_gaps 2 3 = Some 1%Z) by reflexivity.
  split; [exact Hle|].
  split; [exact H1|]. split; [exact H2|].
  apply (SimulateGame_antitone_in_gaps half_gaps unit_gaps 2 2 3 3 2 1
           Hle H1 H2).
Defined.

End SimulatorMore.

(** ** More on the summary statistics *)

Module StatsMore.

Import Py Stats StatsFacts Numpy.
Import Lra.
Local Open Scope R_scope.

(** Whether a call has usable inputs can be decided. *)
Lemma usable_inputs_dec (estimates : list npfloat) (actual : npfloat) :
  (estimates <> [] /\ ~ In NaN estimates /\ actual <> NaN) \/
  ~ (estimates <> [] /\ ~ In NaN estimates /\ actual <> NaN).
Proof.
  destruct estimates as [|e es].
  - right. intros (H & _). apply H. reflexivity.
  - destruct actual as [a|].
    + assert (Hdec : In NaN (e :: es) \/ ~ In NaN (e :: es)).
      { induction (e :: es) as [|x l [IH|IH]].
        - right. intros [].
        - left. right. exact IH.
        - destruct x as [r|].
          + right. intros [Heq|Hin]; [discriminate|contradiction].
          + left. left. reflexivity. }
      destruct Hdec as [Hin|Hno].
      * right. intros (_ & H & _). contradiction.
      * left. split; [discriminate|]. split; [exact Hno|discriminate].
    + right. intros (_ & _ & H). apply H. reflexivity.
Qed.

(** [nan] absorbs every later addition. *)
Lemma fold_fadd_nan (xs : list npfloat) : fold_left fadd xs NaN = NaN.
Proof.
  induction xs as [|x xs IH]; [reflexivity|]. cbn [fold_left]. exact IH.
Qed.

Lemma fadd_nan_r (a : npfloat) : fadd a NaN = NaN.
Proof. destruct a; reflexivity. Qed.

Lemma fold_fadd_in_nan (xs : list npfloat) :
  In NaN xs -> forall acc, fold_left fadd xs acc = NaN.
Proof.
  induction xs as [|x xs IH]; intros Hin acc; [destruct Hin|].
  cbn [fold_left]. destruct Hin as [->|Hin].
  - rewrite fadd_nan_r. apply fold_fadd_nan.
  - apply IH, Hin.
Qed.

Lemma np_mean_in_nan (xs : list npfloat) : In NaN xs -> np_mean xs = NaN.
Proof.
  intros Hin. destruct xs as [|x xs]; [reflexivity|].
  unfold np_mean, np_sum. rewrite (fold_fadd_in_nan _ Hin). reflexivity.
Qed.

(** A sequence of floats is a sequence of reals or holds a [nan]. *)
Lemma finite_or_nan (es : list npfloat) :
  (exists xs, es = map Finite xs) \/ In NaN es.
Proof.
  induction es as [|e es [(xs & ->)|Hin]].
  - left. exists []. reflexivity.
  - destruct e as [x|].
    + left. exists (x :: xs). reflexivity.
    + right. left. reflexivity.
  - right. right. exact Hin.
Qed.

Lemma map_Finite_no_nan (xs : list R) : ~ In NaN (map Finite xs).
Proof.
  intros Hin. apply in_map_iff in Hin. destruct Hin as (x & Hx & _).
  discriminate.
Qed.

Lemma np_mean_reals (xs : list R) :
  xs <> [] ->
  np_mean (map Finite xs) = Finite (sum_of (fun x => x) xs / INR (length xs)).
Proof.
  intros Hne. apply (np_mean_finite (fun x => x)), Hne.
Qed.

Lemma sum_of_differences (a : R) (xs : list R) :
  sum_of (fun x => x - a) xs = sum_of (fun x => x) xs - INR (length xs) * a.
Proof.
  induction xs as [|x xs IH].
  - simpl. lra.
  - rewrite !sum_of_cons, IH. cbn [length]. rewrite S_INR. lra.
Qed.

Lemma mean_of_differences_shift (xs : list R) (a : R) :
  xs <> [] ->
  mean_of_differences xs a = sum_of (fun x => x) xs / INR (length xs) - a.
Proof.
  intros Hne. pose proof (INR_length_pos _ xs Hne) as Hn.
  unfold mean_of_differences. rewrite sum_of_differences. field. lra.
Qed.

(** A sum of terms that are not negative is zero only when every term is. *)
Lemma sum_of_zero_inv (f : R -> R) (xs : list R) :
  (forall x, 0 <= f x) ->
  sum_of f xs = 0 -> Forall (fun x => f x = 0) xs.
Proof.
  intros Hf. induction xs as [|x xs IH]; intros Hsum; [constructor|].
  rewrite sum_of_cons in Hsum.
  pose proof (Hf x) as Hx.
  pose proof (sum_of_nonneg f xs Hf) as Hxs.
  constructor; [lra|]. apply IH. lra.
Qed.

Lemma sum_of_le (f g : R -> R) (xs : list R) :
  Forall (fun x => f x <= g x) xs -> sum_of f xs <= sum_of g xs.
Proof.
  induction 1 as [|x xs Hx _ IH]; [simpl; lra|].
  rewrite !sum_of_cons. lra.
Qed.

Lemma sum_of_constant (c : R) (xs : list R) :
  sum_of (fun _ => c) xs = INR (length xs) * c.
Proof.
  induction xs as [|x xs IH]; [simpl; lra|].
  rewrite sum_of_cons, IH. cbn [length]. rewrite S_INR. lra.
Qed.

(** The variance numpy computes, on reals. *)
Lemma np_var_reals (xs : list R) :
  xs <> [] ->
  np_var (map Finite xs)
  = Finite (mean_of_squared_differences xs
              (sum_of (fun x => x) xs / INR (length xs))).
Proof.
  intros Hne. unfold np_var, squared_deviations.
  rewrite np_mean_reals by exact Hne.
  apply (mse_finite xs _ Hne).
Qed.

Lemma fadd_comm (a b : npfloat) : fadd a b = fadd b a.
Proof. destruct a, b; cbn [fadd]; try reflexivity. f_equal. lra. Qed.

Lemma fadd_swap (acc a b : npfloat) :
  fadd (fadd acc a) b = fadd (fadd acc b) a.
Proof. destruct acc, a, b; cbn [fadd]; try reflexivity. f_equal. lra. Qed.

Lemma fold_fadd_permutation (l l' : list npfloat) :
  Permutation l l' ->
  forall acc, fold_left fadd l acc = fold_left fadd l' acc.
Proof.
  induction 1 as [|x l l' _ IH|x y l|l l' l'' _ IH1 _ IH2]; intros acc.
  - reflexivity.
  - cbn [fold_left]. apply IH.
  - cbn [fold_left]. rewrite fadd_swap. reflexivity.
  - rewrite IH1. apply IH2.
Qed.

Lemma np_mean_permutation (l l' : list npfloat) :
  Permutation l l' -> np_mean l = np_mean l'.
Proof.
  intros Hp. pose proof (Permutation_length Hp) as Hlen.
  destruct l as [|x l], l' as [|x' l']; try discriminate; [reflexivity|].
  unfold np_mean, np_sum.
  rewrite (fold_fadd_permutation _ _ Hp), Hlen. reflexivity.
Qed.

(** The mean of the errors is the error of the mean, [nan]s included. *)
Lemma np_mean_of_errors (estimates : list npfloat) (actual : npfloat) :
  np_mean (map (fun estimate => fsub estimate actual) estimates)
  = fsub (np_mean estimates) actual.
Proof.
  destruct estimates as [|e es]; [reflexivity|].
  destruct actual as [a|].
  - destruct (finite_or_nan (e :: es)) as [(xs & Hxs)|Hin].
    + rewrite Hxs, map_map. cbn [fsub].
      assert (Hne : xs <> []) by (intros ->; discriminate).
      rewrite (np_mean_finite (fun x => x - a)), np_mean_reals by exact Hne.
      cbn [fsub]. f_equal.
      apply (mean_of_differences_shift xs a Hne).
    + rewrite (np_mean_in_nan _ Hin). cbn [fsub].
      apply np_mean_in_nan.
      change NaN with (fsub NaN (Finite a)).
      apply (in_map (fun estimate => fsub estimate (Finite a))), Hin.
  - replace (fsub (np_mean (e :: es)) NaN) with NaN
      by (destruct (np_mean (e :: es)); reflexivity).
    apply np_mean_in_nan. cbn [map]. left. destruct e; reflexivity.
Qed.

(** A [nan] among the estimates makes the mean squared error [nan]. *)
Lemma mse_in_nan (estimates : list npfloat) (actual : npfloat) :
  In NaN estimates -> mse estimates actual = NaN.
Proof.
  intros Hin. apply np_mean_in_nan.
  replace NaN with (fpow2 (fsub NaN actual)) at 1 by reflexivity.
  apply (in_map (fun estimate => fpow2 (fsub estimate actual))), Hin.
Qed.

(** X7: the mean error is the error of the mean.  For every collection of
    estimates and every actual value, empty collections and [nan]s
    included, [MeanError] returns [np.mean(estimates) - actual]. *)
Theorem MeanError_is_error_of_mean :
  forall (estimates : list npfloat) (actual : npfloat),
    MeanError estimates actual = Returns (fsub (np_mean estimates) actual).
Proof.
  intros estimates actual. unfold MeanError. f_equal.
  apply np_mean_of_errors.
Qed.

(** X8: in exact real arithmetic, on estimates and an actual value that
    are numbers or [nan] (no infinity, no overflow), [RMSE] and [MeanError]
    return a number, not [nan], exactly when the collection is not empty
    and neither an estimate nor the actual value is [nan]. *)
Theorem RMSE_MeanError_finite_iff :
  forall (estimates : list npfloat) (actual : npfloat),
    ((exists r, RMSE estimates actual = Returns (Finite r)) <->
     (estimates <> [] /\ ~ In NaN estimates /\ actual <> NaN)) /\
    ((exists m, MeanError estimates actual = Returns (Finite m)) <->
     (estimates <> [] /\ ~ In NaN estimates /\ actual <> NaN)).
Proof.
  intros estimates actual.
  assert (Hfin : estimates <> [] /\ ~ In NaN estimates /\ actual <> NaN ->
                 exists xs a, xs <> [] /\ estimates = map Finite xs /\
                              actual = Finite a).
  { intros (Hne & Hno & Ha).
    destruct (finite_or_nan estimates) as [(xs & ->)|Hin]; [|contradiction].
    destruct actual as [a|]; [|congruence].
    exists xs, a. split; [intros ->; apply Hne; reflexivity|].
    split; reflexivity. }
  assert (Hnan : ~ (estimates <> [] /\ ~ In NaN estimates /\ actual <> NaN) ->
                 mse estimates actual = NaN /\
                 MeanError estimates actual = Returns NaN).
  { intros Hnot.
    destruct estimates as [|e es]; [split; reflexivity|].
    destruct actual as [a|].
    - destruct (finite_or_nan (e :: es)) as [(xs & Hxs)|Hin].
      + exfalso. apply Hnot. split; [discriminate|].
        split; [rewrite Hxs; apply map_Finite_no_nan|discriminate].
      + split.
        * apply mse_in_nan, Hin.
        * unfold MeanError.
          rewrite np_mean_of_errors, (np_mean_in_nan _ Hin). reflexivity.
    - split.
      + apply np_mean_in_nan. cbn [squared_errors map]. left.
        destruct e; reflexivity.
      + unfold MeanError. rewrite np_mean_of_errors.
        destruct (np_mean (e :: es)); reflexivity. }
  split; split.
  - intros (r & Hr).
    destruct (usable_inputs_dec estimates actual) as [Hyes|Hno]; [exact Hyes|].
    destruct (Hnan Hno) as (Hmse & _).
    unfold RMSE in Hr. rewrite Hmse in Hr. discriminate.
  - intros H. destruct (Hfin H) as (xs & a & Hne & -> & ->).
    eexists. apply RMSE_finite, Hne.
  - intros (m & Hm).
    destruct (usable_inputs_dec estimates actual) as [Hyes|Hno]; [exact Hyes|].
    destruct (Hnan Hno) as (_ & Hme). rewrite Hme in Hm. discriminate.
  - intros H. destruct (Hfin H) as (xs & a & Hne & -> & ->).
    eexists. apply MeanError_finite, Hne.
Qed.

(** X9: in exact real arithmetic, on a non-empty collection of (finite)
    estimates [RMSE] returns 0 only when every estimate equals the actual
    value, and always then. *)
Theorem RMSE_zero_iff_exact :
  forall (xs : list R) (a : R),
    xs <> [] ->
    (RMSE (map Finite xs) (Finite a) = Returns (Finite 0) <->
     Forall (fun x => x = a) xs).
Proof.
  intros xs a Hne. rewrite RMSE_finite by exact Hne.
  pose proof (INR_length_pos _ xs Hne) as Hn.
  pose proof (mean_of_squared_differences_nonneg xs a Hne) as Hpos.
  split.
  - intros [= Hsqrt].
    apply sqrt_eq_0 in Hsqrt; [|exact Hpos].
    unfold mean_of_squared_differences in Hsqrt.
    assert (Hsum : sum_of (fun x => (x - a) * (x - a)) xs = 0).
    { apply Rmult_eq_reg_r with (r := / INR (length xs)).
      - rewrite Rmult_0_l. exact Hsqrt.
      - apply Rinv_neq_0_compat. lra. }
    apply sum_of_zero_inv in Hsum; [|intros x; apply Rle_0_sqr].
    apply Forall_impl with (2 := Hsum). cbv beta. intros x Hx.
    apply Rmult_integral in Hx. lra.
  - intros Hall. unfold mean_of_squared_differences.
    rewrite (sum_of_zero _ a xs) by (exact Hall || lra).
    do 2 f_equal. unfold Rdiv. rewrite Rmult_0_l. apply sqrt_0.
Qed.

Lemma RMSE_zero_iff_exact_witness :
  [3; 3] <> [] /\
  (RMSE (map Finite [3; 3]) (Finite 3) = Returns (Finite 0) <->
   Forall (fun x => x = 3) [3; 3]).
Proof.
  assert (Hne : [3; 3] <> []) by discriminate.
  split; [exact Hne|].
  apply (RMSE_zero_iff_exact [3; 3] 3 Hne).
Defined.

(** X10: the mean squared error splits into bias and variance.  On a
    non-empty collection of (finite) estimates the square of [RMSE] is the
    square of [MeanError] plus [np.var] of the estimates. *)
Theorem RMSE_bias_variance :
  forall (xs : list R) (a : R),
    xs <> [] ->
    exists r m v : R,
      RMSE (map Finite xs) (Finite a) = Returns (Finite r) /\
      MeanError (map Finite xs) (Finite a) = Returns (Finite m) /\
      np_var (map Finite xs) = Finite v /\
      r * r = m * m + v.
Proof.
  intros xs a Hne.
  pose proof (INR_length_pos _ xs Hne) as Hn.
  exists (sqrt (mean_of_squared_differences xs a)),
         (mean_of_differences xs a),
         (mean_of_squared_differences xs
            (sum_of (fun x => x) xs / INR (length xs))).
  split; [apply RMSE_finite, Hne|].
  split; [apply MeanError_finite, Hne|].
  split; [apply np_var_reals, Hne|].
  rewrite sqrt_sqrt by (apply mean_of_squared_differences_nonneg, Hne).
  pose proof (sum_of_squares_around a (mean_of_differences xs a) xs) as Hsq.
  replace (sum_of (fun x => x) xs / INR (length xs))
    with (a + mean_of_differences xs a)
    by (rewrite (mean_of_differences_shift xs a Hne); ring).
  unfold mean_of_squared_differences at 2.
  rewrite (sum_of_ext
             (fun x => (x - (a + mean_of_differences xs a))
                       * (x - (a + mean_of_differences xs a)))
             (fun x => (x - a - mean_of_differences xs a)
                       * (x - a - mean_of_differences xs a)))
    by (intros x; ring).
  rewrite Hsq. unfold mean_of_squared_differences, mean_of_differences.
  field. lra.
Qed.

Lemma RMSE_bias_variance_witness :
  [1; 5] <> [] /\
  exists r m v : R,
    RMSE (map Finite [1; 5]) (Finite 2) = Returns (Finite r) /\
    MeanError (map Finite [1; 5]) (Finite 2) = Returns (Finite m) /\
    np_var (map Finite [1; 5]) = Finite v /\
    r * r = m * m + v.
Proof.
  assert (Hne : [1; 5] <> []) by discriminate.
  split; [exact Hne|].
  apply (RMSE_bias_variance [1; 5] 2 Hne).
Defined.

(** X11: the order of the estimates is irrelevant.  [RMSE] and [MeanError]
    return the same value on a collection and on any rearrangement of
    it. *)
Theorem RMSE_MeanError_order_irrelevant :
  forall (estimates estimates' : list npfloat) (actual : npfloat),
    Permutation estimates estimates' ->
    RMSE estimates actual = RMSE estimates' actual /\
    MeanError estimates actual = MeanError estimates' actual.
Proof.
  intros estimates estimates' actual Hp. split.
  - unfold RMSE, mse, squared_errors. do 2 f_equal.
    apply np_mean_permutation, Permutation_map, Hp.
  - unfold MeanError. f_equal.
    apply np_mean_permutation, Permutation_map, Hp.
Qed.

Lemma RMSE_MeanError_order_irrelevant_witness :
  Permutation [Finite 1; Finite 2] [Finite 2; Finite 1] /\
  RMSE [Finite 1; Finite 2] (Finite 0) = RMSE [Finite 2; Finite 1] (Finite 0) /\
  MeanError [Finite 1; Finite 2] (Finite 0)
  = MeanError [Finite 2; Finite 1] (Finite 0).
Proof.
  assert (Hp : Permutation [Finite 1; Finite 2] [Finite 2; Finite 1])
    by apply perm_swap.
  split; [exact Hp|].
  apply (RMSE_MeanError_order_irrelevant _ _ (Finite 0) Hp).
Defined.

(** X12: in exact real arithmetic the mean error lies between the smallest
    and the largest error.  When every error [estimate - actual] of a non-empty (finite) collection
    is within [lo] and [hi], so is the value of [MeanError]; estimates that
    are never below the actual value give a mean error that is not
    negative. *)
Theorem MeanError_between_errors :
  forall (xs : list R) (a lo hi : R),
    xs <> [] ->
    Forall (fun x => lo <= x - a <= hi) xs ->
    exists m : R,
      MeanError (map Finite xs) (Finite a) = Returns (Finite m) /\
      lo <= m <= hi.
Proof.
  intros xs a lo hi Hne Hall.
  pose proof (INR_length_pos _ xs Hne) as Hn.
  exists (mean_of_differences xs a).
  split; [apply MeanError_finite, Hne|].
  assert (Hlo : sum_of (fun _ => lo) xs <= sum_of (fun x => x - a) xs).
  { apply sum_of_le. apply Forall_impl with (2 := Hall). cbv beta. tauto. }
  assert (Hhi : sum_of (fun x => x - a) xs <= sum_of (fun _ => hi) xs).
  { apply sum_of_le. apply Forall_impl with (2 := Hall). cbv beta. tauto. }
  rewrite sum_of_constant in Hlo, Hhi.
  unfold mean_of_differences. split.
  - apply Rmult_le_reg_r with (r := INR (length xs)); [exact Hn|].
    unfold Rdiv. rewrite Rmult_assoc, Rinv_l by lra. lra.
  - apply Rmult_le_reg_r with (r := INR (length xs)); [exact Hn|].
    unfold Rdiv. rewrite Rmult_assoc, Rinv_l by lra. lra.
Qed.

Lemma MeanError_between_errors_witness :
  [3; 4] <> [] /\
  Forall (fun x => 0 <= x - 2 <= 2) [3; 4] /\
  exists m : R,
    MeanError (map Finite [3; 4]) (Finite 2) = Returns (Finite m) /\
    0 <= m <= 2.
Proof.
  assert (Hne : [3; 4] <> []) by discriminate.
  assert (Hall : Forall (fun x => 0 <= x - 2 <= 2) [3; 4])
    by (repeat constructor; lra).
  split; [exact Hne|]. split; [exact Hall|].
  apply (MeanError_between_errors [3; 4] 2 0 2 Hne Hall).
Defined.

(** X13: in exact real arithmetic [RMSE] is at most the largest absolute
    error.  When every estimate
    of a non-empty (finite) collection is within [e] of the actual value,
    the value of [RMSE] is at most [e]. *)
Theorem RMSE_at_most_largest_error :
  forall (xs : list R) (a e : R),
    xs <> [] ->
    Forall (fun x => Rabs (x - a) <= e) xs ->
    exists r : R,
      RMSE (map Finite xs) (Finite a) = Returns (Finite r) /\
      r <= e.
Proof.
  intros xs a e Hne Hall.
  pose proof (INR_length_pos _ xs Hne) as Hn.
  exists (sqrt (mean_of_squared_differences xs a)).
  split; [apply RMSE_finite, Hne|].
  assert (He : 0 <= e).
  { destruct xs as [|x xs]; [congruence|].
    apply Forall_inv in Hall. pose proof (Rabs_pos (x - a)). lra. }
  rewrite <- (sqrt_square e He).
  apply sqrt_le_1_alt.
  assert (Hsum : sum_of (fun x => (x - a) * (x - a)) xs
                 <= sum_of (fun _ => e * e) xs).
  { apply sum_of_le. apply Forall_impl with (2 := Hall). cbv beta.
    intros x Hx. change (Rsqr (x - a) <= e * e).
    rewrite Rsqr_abs. unfold Rsqr.
    pose proof (Rabs_pos (x - a)) as Hpos.
    apply Rmult_le_compat; assumption. }
  rewrite sum_of_constant in Hsum.
  unfold mean_of_squared_differences.
  apply Rmult_le_reg_r with (r := INR (length xs)); [exact Hn|].
  unfold Rdiv. rewrite Rmult_assoc, Rinv_l by lra. lra.
Qed.

Lemma RMSE_at_most_largest_error_witness :
  [1; 3] <> [] /\
  Forall (fun x => Rabs (x - 2) <= 1) [1; 3] /\
  exists r : R,
    RMSE (map Finite [1; 3]) (Finite 2) = Returns (Finite r) /\
    r <= 1.
Proof.
  assert (Hne : [1; 3] <> []) by discriminate.
  assert (Hall : Forall (fun x => Rabs (x - 2) <= 1) [1; 3]).
  { repeat constructor; unfold Rabs; destruct (Rcase_abs _); lra. }
  split; [exact Hne|]. split; [exact Hall|].
  apply (RMSE_at_most_largest_error [1; 3] 2 1 Hne Hall).
Defined.

End StatsMore.

(** ** The experiments *)

Module ExperimentFacts.

Import Py Stats Harness Numpy Experiments Mocks.
Import StatsFacts StatsMore HarnessFacts.
Import Lra.
Local Open Scope R_scope.

(** The lists [Estimate1] has collected when its loop ends. *)
Lemma Estimate1_lists (gauss : R -> R -> nat -> R) (mu sigma : R)
  (n iters : Z) :
  means (Estimate1_loop gauss mu sigma n iters)
  = map (fun j => np_mean (trial_sample gauss mu sigma n j))
        (seq 0 (Z.to_nat iters)) /\
  medians (Estimate1_loop gauss mu sigma n iters)
  = map (fun j => np_median (trial_sample gauss mu sigma n j))
        (seq 0 (Z.to_nat iters)).
Proof.
  destruct (trials_append gauss mu sigma n (range iters)
              {| means := []; medians := []; draws := O |})
    as (Hmeans & Hmedians & _).
  cbn zeta in Hmeans, Hmedians.
  fold (Estimate1_loop gauss mu sigma n iters) in Hmeans, Hmedians.
  cbn [means medians draws app Nat.add] in Hmeans, Hmedians.
  unfold range in Hmeans, Hmedians at 1. rewrite length_seq in Hmeans, Hmedians.
  split; assumption.
Qed.

(** A sample is a list of reals, as many as the size asks for. *)
Lemma sample_reals (gauss : R -> R -> nat -> R) (mu sigma : R) (n : Z)
  (first : nat) :
  sample gauss mu sigma n first
  = map Finite (map (fun i => gauss mu sigma (first + i)%nat)
                    (seq 0 (Z.to_nat n))).
Proof. unfold sample, range. rewrite map_map. reflexivity. Qed.

Lemma seq_not_nil (A : Type) (f : nat -> A) (k : nat) :
  (1 <= k)%nat -> map f (seq 0 k) <> [].
Proof. destruct k as [|k]; [lia|]. discriminate. Qed.

Lemma sample_empty (gauss : R -> R -> nat -> R) (mu sigma : R) (n : Z)
  (first : nat) :
  (n < 1)%Z -> sample gauss mu sigma n first = [].
Proof.
  intros Hn. unfold sample, range.
  replace (Z.to_nat n) with O by lia. reflexivity.
Qed.

Lemma finite_values_reals (rs : list R) : finite_values (map Finite rs) = Some rs.
Proof.
  induction rs as [|r rs IH]; [reflexivity|].
  cbn [map finite_values]. rewrite IH. reflexivity.
Qed.

Lemma np_median_reals (rs : list R) :
  rs <> [] -> exists m, np_median (map Finite rs) = Finite m.
Proof.
  intros Hne. unfold np_median. rewrite finite_values_reals.
  destruct rs as [|r rs]; [congruence|].
  destruct (Nat.even _); eexists; reflexivity.
Qed.

Lemma np_mean_reals_finite (rs : list R) :
  rs <> [] -> exists m, np_mean (map Finite rs) = Finite m.
Proof.
  intros Hne. eexists. apply np_mean_reals, Hne.
Qed.

(** A list of floats that are all numbers is a list of reals. *)
Lemma map_all_finite (A : Type) (f : A -> npfloat) (l : list A) :
  (forall j, exists r, f j = Finite r) ->
  exists rs, map f l = map Finite rs /\ length rs = length l.
Proof.
  intros Hf. induction l as [|j l (rs & Hrs & Hlen)].
  - exists []. split; reflexivity.
  - destruct (Hf j) as [r Hr]. exists (r :: rs).
    cbn [map length]. rewrite Hr, Hrs, Hlen. split; reflexivity.
Qed.

Lemma map_constant_nan (A : Type) (f : A -> npfloat) (l : list A) :
  l <> [] -> (forall j, f j = NaN) -> In NaN (map f l).
Proof.
  intros Hne Hf. destruct l as [|j l]; [congruence|].
  left. apply Hf.
Qed.

Lemma RMSE_value (estimates : list npfloat) (actual : npfloat) :
  RMSE estimates actual = Returns (np_sqrt (mse estimates actual)).
Proof. reflexivity. Qed.

(** The value [RMSE] returns on the reals [rs], and what is known of it. *)
Lemma RMSE_reals (rs : list R) (a : R) :
  rs <> [] ->
  exists r, RMSE (map Finite rs) (Finite a) = Returns (Finite r) /\ 0 <= r.
Proof.
  intros Hne. exists (sqrt (mean_of_squared_differences rs a)).
  split; [apply RMSE_finite, Hne|apply sqrt_pos].
Qed.

Lemma RMSE_nan (estimates : list npfloat) (actual : npfloat) :
  estimates = [] \/ In NaN estimates ->
  RMSE estimates actual = Returns NaN.
Proof.
  intros [->|Hin]; [reflexivity|].
  rewrite RMSE_value, (mse_in_nan _ _ Hin). reflexivity.
Qed.

(** X14: [Estimate1] never raises and prints three lines.  With [n >= 1]
    and [iters >= 1] the two numbers printed are root mean squared errors
    that are not negative; with [n < 1] or [iters < 1] both are [nan]. *)
Theorem Estimate1_prints :
  forall (gauss : R -> R -> nat -> R) (n iters : Z),
    exists v1 v2 : npfloat,
      Estimate1 gauss n iters
      = Returns [("Experiment 1"%string, None);
                 ("rmse xbar"%string, Some v1);
                 ("rmse median"%string, Some v2)] /\
      ((1 <= n)%Z /\ (1 <= iters)%Z ->
       exists r1 r2, v1 = Finite r1 /\ v2 = Finite r2 /\ 0 <= r1 /\ 0 <= r2) /\
      ((n < 1)%Z \/ (iters < 1)%Z -> v1 = NaN /\ v2 = NaN).
Proof.
  intros gauss n iters.
  destruct (Estimate1_lists gauss 0 1 n iters) as (Hmeans & Hmedians).
  exists (np_sqrt (mse (means (Estimate1_loop gauss 0 1 n iters)) (Finite 0))),
         (np_sqrt (mse (medians (Estimate1_loop gauss 0 1 n iters)) (Finite 0))).
  split; [reflexivity|]. split.
  - intros (Hn & Hiters).
    assert (Hrs : forall j, exists rs, rs <> [] /\
                    trial_sample gauss 0 1 n j = map Finite rs).
    { intros j. unfold trial_sample. rewrite sample_reals.
      eexists. split; [|reflexivity]. apply seq_not_nil. lia. }
    destruct (map_all_finite nat
                (fun j => np_mean (trial_sample gauss 0 1 n j))
                (seq 0 (Z.to_nat iters))) as (ms & Hms & Hlen).
    { intros j. destruct (Hrs j) as (rs & Hne & ->).
      apply np_mean_reals_finite, Hne. }
    destruct (map_all_finite nat
                (fun j => np_median (trial_sample gauss 0 1 n j))
                (seq 0 (Z.to_nat iters))) as (ds & Hds & Hlen').
    { intros j. destruct (Hrs j) as (rs & Hne & ->).
      apply np_median_reals, Hne. }
    rewrite length_seq in Hlen, Hlen'.
    assert (Hmne : ms <> []) by (intros ->; cbn [length] in Hlen; lia).
    assert (Hdne : ds <> []) by (intros ->; cbn [length] in Hlen'; lia).
    destruct (RMSE_reals ms 0 Hmne) as (r1 & Hr1 & Hpos1).
    destruct (RMSE_reals ds 0 Hdne) as (r2 & Hr2 & Hpos2).
    rewrite RMSE_value in Hr1, Hr2. injection Hr1 as Hr1. injection Hr2 as Hr2.
    exists r1, r2. rewrite Hmeans, Hmedians, Hms, Hds.
    repeat split; assumption.
  - intros Hedge.
    assert (Hnan : forall l : list npfloat,
               l = [] \/ In NaN l -> np_sqrt (mse l (Finite 0)) = NaN).
    { intros l Hl. pose proof (RMSE_nan l (Finite 0) Hl) as H.
      rewrite RMSE_value in H. injection H as H. exact H. }
    rewrite Hmeans, Hmedians.
    destruct (Z.lt_ge_cases iters 1) as [Hiters|Hiters].
    + replace (Z.to_nat iters) with O by lia. cbn [seq map].
      split; apply Hnan; left; reflexivity.
    + assert (Hn : (n < 1)%Z) by lia.
      assert (Hseq : seq 0 (Z.to_nat iters) <> []).
      { destruct (Z.to_nat iters) eqn:E; [lia|discriminate]. }
      split; apply Hnan; right; apply map_constant_nan; try exact Hseq;
        intros j; unfold trial_sample; rewrite sample_empty by exact Hn;
        reflexivity.
Qed.

(** On one or two items the median is the mean. *)
Lemma mean_median_one (a : R) : np_mean [Finite a] = np_median [Finite a].
Proof.
  unfold np_mean, np_sum, np_median.
  cbn [fold_left fadd length finite_values option_map sorted fold_right
       insert_sorted Nat.even Nat.div Nat.divmod fst nth INR].
  f_equal. lra.
Qed.

Lemma mean_median_two (a b : R) :
  np_mean [Finite a; Finite b] = np_median [Finite a; Finite b].
Proof.
  unfold np_mean, np_sum, np_median.
  cbn [fold_left fadd finite_values option_map sorted fold_right
       insert_sorted].
  destruct (Rle_dec a b);
    cbn [length Nat.even Nat.div Nat.divmod fst nth Nat.sub INR];
    f_equal; lra.
Qed.

Lemma mean_median_small_sample (gauss : R -> R -> nat -> R) (mu sigma : R)
  (n : Z) (first : nat) :
  (n = 1 \/ n = 2)%Z ->
  np_mean (sample gauss mu sigma n first)
  = np_median (sample gauss mu sigma n first).
Proof.
  intros [-> | ->]; unfold sample, range.
  - change (Z.to_nat 1) with 1%nat. apply mean_median_one.
  - change (Z.to_nat 2) with 2%nat. apply mean_median_two.
Qed.

(** X15: on samples of one or two items the two estimators of [Estimate1]
    coincide: the loop collects the same means and medians, and the two
    numbers printed are the same. *)
Theorem Estimate1_small_samples :
  forall (gauss : R -> R -> nat -> R) (n iters : Z),
    (n = 1 \/ n = 2)%Z ->
    means (Estimate1_loop gauss 0 1 n iters)
    = medians (Estimate1_loop gauss 0 1 n iters) /\
    exists v : npfloat,
      Estimate1 gauss n iters
      = Returns [("Experiment 1"%string, None);
                 ("rmse xbar"%string, Some v);
                 ("rmse median"%string, Some v)].
Proof.
  intros gauss n iters Hn.
  destruct (Estimate1_lists gauss 0 1 n iters) as (Hmeans & Hmedians).
  assert (Heq : means (Estimate1_loop gauss 0 1 n iters)
                = medians (Estimate1_loop gauss 0 1 n iters)).
  { rewrite Hmeans, Hmedians. apply map_ext. intros j.
    apply mean_median_small_sample, Hn. }
  split; [exact Heq|].
  exists (np_sqrt (mse (means (Estimate1_loop gauss 0 1 n iters)) (Finite 0))).
  unfold Estimate1. cbv zeta. rewrite <- Heq. reflexivity.
Qed.

Lemma Estimate1_small_samples_witness :
  (2 = 1 \/ 2 = 2)%Z /\
  means (Estimate1_loop counting_gauss 0 1 2 3)
  = medians (Estimate1_loop counting_gauss 0 1 2 3) /\
  exists v : npfloat,
    Estimate1 counting_gauss 2 3
    = Returns [("Experiment 1"%string, None);
               ("rmse xbar"%string, Some v);
               ("rmse median"%string, Some v)].
Proof.
  assert (Hn : (2 = 1 \/ 2 = 2)%Z) by (right; reflexivity).
  split; [exact Hn|].
  apply (Estimate1_small_samples counting_gauss 2 3 Hn).
Defined.

(** What a run of trials of [Estimate2] adds to the lists it starts
    from. *)
Lemma variance_trials_append (gauss : R -> R -> nat -> R) (mu sigma : R)
  (n : Z) (l : list nat) :
  forall c : variance_estimates,
    estimates1 (fold_left (fun c _ => Estimate2_trial gauss mu sigma n c) l c)
    = estimates1 c ++
      map (fun j => np_var
                      (sample gauss mu sigma n (gauss_draws c + j * Z.to_nat n)))
          (seq 0 (length l)) /\
    estimates2 (fold_left (fun c _ => Estimate2_trial gauss mu sigma n c) l c)
    = estimates2 c ++
      map (fun j => np_var_ddof1
                      (sample gauss mu sigma n (gauss_draws c + j * Z.to_nat n)))
          (seq 0 (length l)).
Proof.
  induction l as [|x l IH]; intros c; cbn [fold_left length].
  - cbn [seq map]. rewrite !app_nil_r. split; reflexivity.
  - destruct (IH (Estimate2_trial gauss mu sigma n c)) as (H1 & H2).
    rewrite H1, H2.
    cbn [Estimate2_trial estimates1 estimates2 gauss_draws].
    rewrite length_sample, <- !app_assoc. cbn [app seq map].
    rewrite <- seq_shift, !map_map, Nat.add_0_r.
    split; do 2 f_equal; apply map_ext; intros j; do 2 f_equal; lia.
Qed.

Lemma Estimate2_lists (gauss : R -> R -> nat -> R) (mu sigma : R)
  (n iters : Z) :
  estimates1 (Estimate2_loop gauss mu sigma n iters)
  = map (fun j => np_var (trial_sample gauss mu sigma n j))
        (seq 0 (Z.to_nat iters)) /\
  estimates2 (Estimate2_loop gauss mu sigma n iters)
  = map (fun j => np_var_ddof1 (trial_sample gauss mu sigma n j))
        (seq 0 (Z.to_nat iters)).
Proof.
  destruct (variance_trials_append gauss mu sigma n (range iters)
              {| estimates1 := []; estimates2 := []; gauss_draws := O |})
    as (H1 & H2).
  fold (Estimate2_loop gauss mu sigma n iters) in H1, H2.
  cbn [estimates1 estimates2 gauss_draws app Nat.add] in H1, H2.
  unfold range in H1, H2 at 1. rewrite length_seq in H1, H2.
  split; assumption.
Qed.

(** The variance with [ddof=1] of two reals or more. *)
Lemma np_var_ddof1_reals (rs : list R) :
  (2 <= length rs)%nat ->
  np_var_ddof1 (map Finite rs)
  = Finite (mean_of_squared_differences rs
              (sum_of (fun x => x) rs / INR (length rs))
            * INR (length rs) / (INR (length rs) - 1)).
Proof.
  intros Hlen.
  assert (Hne : rs <> []) by (intros ->; cbn [length] in Hlen; lia).
  pose proof (INR_length_pos _ rs Hne) as Hn.
  unfold np_var_ddof1, squared_deviations.
  rewrite np_mean_reals by exact Hne. rewrite map_map. cbn [fsub fpow2].
  unfold np_sum.
  rewrite (fold_fadd_finite
             (fun x => (x - sum_of (fun x => x) rs / INR (length rs)) ^ 2)).
  rewrite length_map.
  destruct (length rs - 1)%nat as [|k] eqn:E; [lia|].
  rewrite <- E, minus_INR by lia. cbn [INR].
  f_equal. unfold mean_of_squared_differences.
  rewrite (sum_of_ext
             (fun x => (x - sum_of (fun x => x) rs / INR (length rs)) ^ 2)
             (fun x => (x - sum_of (fun x => x) rs / INR (length rs))
                       * (x - sum_of (fun x => x) rs / INR (length rs))))
    by (intros x; ring).
  assert (Hn1 : 1 < INR (length rs)).
  { change 1 with (INR 1). apply lt_INR. lia. }
  field. split; lra.
Qed.




Lemma trial_sample_block (gauss : R -> R -> nat -> R) (mu sigma : R) (n : Z)
  (j : nat) :
  trial_sample gauss mu sigma n j = map Finite (block (gauss mu sigma) n j).
Proof. unfold trial_sample. rewrite sample_reals. reflexivity. Qed.

Lemma length_block (draw : nat -> R) (n : Z) (j : nat) :
  length (block draw n j) = Z.to_nat n.
Proof. unfold block. rewrite length_map, length_seq. reflexivity. Qed.

Lemma block_not_nil (draw : nat -> R) (n : Z) (j : nat) :
  (1 <= n)%Z -> block draw n j <> [].
Proof.
  intros Hn E. pose proof (length_block draw n j) as Hlen.
  rewrite E in Hlen. cbn [length] in Hlen. lia.
Qed.

Lemma variance_of_nonneg (rs : list R) : rs <> [] -> 0 <= variance_of rs.
Proof. intros Hne. apply mean_of_squared_differences_nonneg, Hne. Qed.

Lemma sum_of_map_scale (A : Type) (f : A -> R) (c : R) (l : list A) :
  sum_of (fun x => x) (map (fun j => f j * c) l)
  = sum_of (fun x => x) (map f l) * c.
Proof.
  induction l as [|j l IH]; [simpl; lra|].
  cbn [map]. rewrite !sum_of_cons, IH. lra.
Qed.

Lemma sum_of_map_nonneg (A : Type) (f : A -> R) (l : list A) :
  (forall j, 0 <= f j) -> 0 <= sum_of (fun x => x) (map f l).
Proof.
  intros Hf. induction l as [|j l IH]; [simpl; lra|].
  cbn [map]. rewrite sum_of_cons. specialize (Hf j). lra.
Qed.

Lemma sum_of_map_zero (A : Type) (f : A -> R) (l : list A) :
  (forall j, f j = 0) -> sum_of (fun x => x) (map f l) = 0.
Proof.
  intros Hf. induction l as [|j l IH]; [reflexivity|].
  cbn [map]. rewrite sum_of_cons, IH, Hf. lra.
Qed.

(** The two lists of [Estimate2], on samples of two draws or more. *)
Lemma Estimate2_lists_reals (gauss : R -> R -> nat -> R) (mu sigma : R)
  (n iters : Z) :
  (2 <= n)%Z ->
  estimates1 (Estimate2_loop gauss mu sigma n iters)
  = map Finite (map (fun j => variance_of (block (gauss mu sigma) n j))
                    (seq 0 (Z.to_nat iters))) /\
  estimates2 (Estimate2_loop gauss mu sigma n iters)
  = map Finite (map (fun j => variance_of (block (gauss mu sigma) n j)
                              * (IZR n / (IZR n - 1)))
                    (seq 0 (Z.to_nat iters))).
Proof.
  intros Hn.
  destruct (Estimate2_lists gauss mu sigma n iters) as (H1 & H2).
  rewrite H1, H2, !map_map.
  assert (HINR : forall j, INR (length (block (gauss mu sigma) n j)) = IZR n).
  { intros j. rewrite length_block, INR_IZR_INZ, Z2Nat.id by lia. reflexivity. }
  split; apply map_ext; intros j; rewrite trial_sample_block.
  - apply np_var_reals, block_not_nil. lia.
  - rewrite np_var_ddof1_reals by (rewrite length_block; lia).
    rewrite HINR. f_equal. unfold variance_of. rewrite HINR.
    unfold Rdiv. ring.
Qed.

(** X17: the two numbers [Estimate2] prints, in exact real arithmetic.
    With [n >= 2] and
    [iters >= 1] it prints a biased mean error [mb] and an unbiased mean
    error [mu] with [(mu + 1) * (n - 1) = (mb + 1) * n]; the biased one is
    the smaller, and it is at least -1. *)
Theorem Estimate2_prints :
  forall (gauss : R -> R -> nat -> R) (n iters : Z),
    (2 <= n)%Z -> (1 <= iters)%Z ->
    exists mb mu : R,
      Estimate2 gauss n iters
      = Returns [("mean error biased"%string, Some (Finite mb));
                 ("mean error unbiased"%string, Some (Finite mu))] /\
      (mu + 1) * (IZR n - 1) = (mb + 1) * IZR n /\
      -1 <= mb <= mu.
Proof.
  intros gauss n iters Hn Hiters.
  destruct (Estimate2_lists_reals gauss 0 1 n iters Hn) as (H1 & H2).
  set (bs := map (fun j => variance_of (block (gauss 0 1) n j))
                 (seq 0 (Z.to_nat iters))) in *.
  set (us := map (fun j => variance_of (block (gauss 0 1) n j)
                           * (IZR n / (IZR n - 1)))
                 (seq 0 (Z.to_nat iters))) in *.
  assert (Hseq : (1 <= Z.to_nat iters)%nat) by lia.
  assert (Hbne : bs <> []) by (apply seq_not_nil, Hseq).
  assert (Hune : us <> []) by (apply seq_not_nil, Hseq).
  assert (Hlen : length us = length bs)
    by (unfold us, bs; rewrite !length_map; reflexivity).
  pose proof (INR_length_pos _ bs Hbne) as Hk.
  assert (Hn1 : 1 < IZR n) by (apply IZR_lt; lia).
  exists (mean_of_differences bs (1 ^ 2)), (mean_of_differences us (1 ^ 2)).
  split.
  { unfold Estimate2. cbv zeta. rewrite H1, H2.
    rewrite !MeanError_finite by assumption. reflexivity. }
  rewrite !mean_of_differences_shift by assumption. rewrite Hlen.
  assert (Hsum : sum_of (fun x => x) us
                 = sum_of (fun x => x) bs * (IZR n / (IZR n - 1)))
    by apply sum_of_map_scale.
  assert (Hpos : 0 <= sum_of (fun x => x) bs).
  { apply sum_of_map_nonneg. intros j.
    apply variance_of_nonneg, block_not_nil. lia. }
  rewrite Hsum.
  set (T := sum_of (fun x => x) bs) in *.
  set (k := INR (length bs)) in *.
  assert (Hmean : 0 <= T / k).
  { apply Rmult_le_pos; [exact Hpos|].
    apply Rlt_le, Rinv_0_lt_compat, Hk. }
  assert (Hscaled : T * (IZR n / (IZR n - 1)) / k
                    = T / k * (IZR n / (IZR n - 1))) by (field; lra).
  rewrite Hscaled.
  assert (Hratio : 1 <= IZR n / (IZR n - 1)).
  { apply Rmult_le_reg_r with (r := IZR n - 1); [lra|].
    replace (IZR n / (IZR n - 1) * (IZR n - 1)) with (IZR n) by (field; lra).
    lra. }
  split; [field; lra|].
  split; [lra|].
  assert (Hgrow : T / k * 1 <= T / k * (IZR n / (IZR n - 1)))
    by (apply Rmult_le_compat_l; assumption).
  lra.
Qed.

Lemma Estimate2_prints_witness :
  (2 <= 3)%Z /\ (1 <= 2)%Z /\
  exists mb mu : R,
    Estimate2 counting_gauss 3 2
    = Returns [("mean error biased"%string, Some (Finite mb));
               ("mean error unbiased"%string, Some (Finite mu))] /\
    (mu + 1) * (IZR 3 - 1) = (mb + 1) * IZR 3 /\
    -1 <= mb <= mu.
Proof.
  assert (Hn : (2 <= 3)%Z) by discriminate.
  assert (Hiters : (1 <= 2)%Z) by discriminate.
  split; [exact Hn|]. split; [exact Hiters|].
  apply (Estimate2_prints counting_gauss 3 2 Hn Hiters).
Defined.

Lemma block_one (draw : nat -> R) (j : nat) :
  block draw 1 j = [draw (j * 1 + 0)%nat].
Proof. reflexivity. Qed.

Lemma variance_of_one (a : R) : variance_of [a] = 0.
Proof.
  unfold variance_of, mean_of_squared_differences.
  cbn [sum_of fold_right length INR]. field.
Qed.

Lemma np_var_ddof1_one (a : R) : np_var_ddof1 [Finite a] = NaN.
Proof. reflexivity. Qed.

Lemma MeanError_nan (estimates : list npfloat) (actual : npfloat) :
  In NaN estimates -> MeanError estimates actual = Returns NaN.
Proof.
  intros Hin. unfold MeanError.
  rewrite np_mean_of_errors, (np_mean_in_nan _ Hin). reflexivity.
Qed.

(** X18: [Estimate2] on samples of a single draw.  With [n = 1] and
    [iters >= 1] every biased estimate is 0 and every unbiased estimate is
    [nan] (numpy divides by [n - 1 = 0]), so the biased mean error printed
    is exactly -1 and the unbiased one is [nan]. *)
Theorem Estimate2_single_draw :
  forall (gauss : R -> R -> nat -> R) (iters : Z),
    (1 <= iters)%Z ->
    exists mb : R,
      Estimate2 gauss 1 iters
      = Returns [("mean error biased"%string, Some (Finite mb));
                 ("mean error unbiased"%string, Some NaN)] /\
      mb = -1.
Proof.
  intros gauss iters Hiters.
  destruct (Estimate2_lists gauss 0 1 1 iters) as (H1 & H2).
  assert (Hseq : (1 <= Z.to_nat iters)%nat) by lia.
  set (bs := map (fun j => variance_of (block (gauss 0 1) 1 j))
                 (seq 0 (Z.to_nat iters))).
  assert (Hb : estimates1 (Estimate2_loop gauss 0 1 1 iters) = map Finite bs).
  { rewrite H1. unfold bs. rewrite map_map. apply map_ext. intros j.
    rewrite trial_sample_block. apply np_var_reals. discriminate. }
  assert (Hu : In NaN (estimates2 (Estimate2_loop gauss 0 1 1 iters))).
  { rewrite H2. apply map_constant_nan.
    - destruct (Z.to_nat iters); [lia|discriminate].
    - intros j. rewrite trial_sample_block, block_one.
      apply np_var_ddof1_one. }
  assert (Hbne : bs <> []) by (apply seq_not_nil, Hseq).
  pose proof (INR_length_pos _ bs Hbne) as Hk.
  exists (mean_of_differences bs (1 ^ 2)). split.
  - unfold Estimate2. cbv zeta.
    rewrite (MeanError_nan _ _ Hu), Hb, MeanError_finite by exact Hbne.
    reflexivity.
  - rewrite mean_of_differences_shift by exact Hbne.
    unfold bs at 1. rewrite sum_of_map_zero.
    + unfold Rdiv. rewrite Rmult_0_l. lra.
    + intros j. rewrite block_one. apply variance_of_one.
Qed.

Lemma Estimate2_single_draw_witness :
  (1 <= 4)%Z /\
  exists mb : R,
    Estimate2 counting_gauss 1 4
    = Returns [("mean error biased"%string, Some (Finite mb));
               ("mean error unbiased"%string, Some NaN)] /\
    mb = -1.
Proof.
  assert (Hiters : (1 <= 4)%Z) by discriminate.
  split; [exact Hiters|].
  apply (Estimate2_single_draw counting_gauss 4 Hiters).
Defined.

(** A loop of [SimulateSample] whose sampler accepts its arguments appends
    one mean per index, each of the [n] draws that follow the last. *)
Lemma SimulateSample_loop_runs (normal : R -> R -> nat -> R) (mu : R)
  (sigma : signed_float) (n : Z) :
  negative sigma = false -> (0 <= n)%Z ->
  forall (js : list nat) (xbars : list npfloat) (first : nat),
    SimulateSample_loop normal mu sigma n js xbars first
    = Array (xbars ++
             map (fun j => np_mean
                    (map (fun i => Finite
                            (normal mu (real_of sigma)
                               (first + j * Z.to_nat n + i)%nat))
                         (seq 0 (Z.to_nat n))))
                 (seq 0 (length js))).
Proof.
  intros Hsigma Hn js. induction js as [|x js IH]; intros xbars first.
  - cbn [SimulateSample_loop length seq map]. rewrite app_nil_r. reflexivity.
  - cbn [SimulateSample_loop]. unfold np_random_normal. rewrite Hsigma.
    destruct (Z.ltb_spec n 0) as [Hneg|_]; [lia|].
    rewrite IH, length_map, length_seq, <- app_assoc.
    cbn [app length seq map]. rewrite <- seq_shift, map_map.
    do 2 f_equal. f_equal.
    + f_equal. apply map_ext. intros i. do 2 f_equal. lia.
    + apply map_ext. intros j. f_equal. apply map_ext. intros i.
      do 2 f_equal. lia.
Qed.

Lemma range_cons (k : Z) :
  (1 <= k)%Z -> exists js, range k = O :: js.
Proof.
  intros Hk. unfold range.
  destruct (Z.to_nat k) as [|m] eqn:E; [lia|].
  eexists. reflexivity.
Qed.

(** X19: [SimulateSample] raises [ValueError] exactly when the loop runs at
    least once and the sampler refuses its arguments: [iters >= 1] and
    either the sign bit of [sigma] is set (a negative [sigma], or -0.0) or
    [n] is negative.  With [iters < 1] it returns the empty list whatever
    [sigma] and [n] are.  numpy's limit on the size of an array is not
    modelled. *)
Theorem SimulateSample_raises_iff :
  forall (normal : R -> R -> nat -> R) (mu : R) (sigma : signed_float)
         (n iters : Z),
    (SimulateSample normal mu sigma n iters = ValueError <->
     ((1 <= iters)%Z /\ (negative sigma = true \/ (n < 0)%Z))) /\
    ((iters < 1)%Z -> SimulateSample normal mu sigma n iters = Array []).
Proof.
  intros normal mu sigma n iters.
  assert (Hempty : (iters < 1)%Z ->
                   SimulateSample normal mu sigma n iters = Array []).
  { intros Hiters. unfold SimulateSample, range.
    replace (Z.to_nat iters) with O by lia. reflexivity. }
  split; [|exact Hempty]. split.
  - intros Hraise.
    destruct (Z.lt_ge_cases iters 1) as [Hlt|Hge].
    + rewrite (Hempty Hlt) in Hraise. discriminate.
    + split; [lia|].
      destruct (negative sigma) eqn:Hs; [left; reflexivity|].
      destruct (Z.lt_ge_cases n 0) as [Hn|Hn]; [right; exact Hn|].
      unfold SimulateSample in Hraise.
      rewrite SimulateSample_loop_runs in Hraise by (assumption || lia).
      discriminate.
  - intros (Hiters & Hbad).
    destruct (range_cons iters Hiters) as [js Hjs].
    unfold SimulateSample. rewrite Hjs. cbn [SimulateSample_loop].
    unfold np_random_normal.
    destruct (negative sigma) eqn:Hs; [reflexivity|].
    destruct (Z.ltb_spec n 0) as [_|Hn]; [reflexivity|].
    destruct Hbad as [Hbad|Hbad]; [discriminate|lia].
Qed.

(** X20: with a [sigma] whose sign bit is clear (a positive [sigma] or
    +0.0) and an [n] that is not negative, [SimulateSample] returns [iters] means; entry [j] is [np.mean] of draws
    [j * n] to [j * n + n - 1], so no draw is used twice. *)
Theorem SimulateSample_means_of_blocks :
  forall (normal : R -> R -> nat -> R) (mu : R) (sigma : signed_float)
         (n iters : Z),
    negative sigma = false -> (0 <= n)%Z -> (0 <= iters)%Z ->
    exists xbars : list npfloat,
      SimulateSample normal mu sigma n iters = Array xbars /\
      Z.of_nat (length xbars) = iters /\
      forall j : nat, (Z.of_nat j < iters)%Z ->
        nth_error xbars j
        = Some (np_mean (map Finite (block (normal mu (real_of sigma)) n j))).
Proof.
  intros normal mu sigma n iters Hsigma Hn Hiters.
  eexists. split.
  { unfold SimulateSample. apply SimulateSample_loop_runs; assumption. }
  cbn [app]. unfold range at 1 2. rewrite length_seq.
  split; [rewrite length_map, length_seq; lia|].
  intros j Hj.
  assert (Hnth : nth_error (seq 0 (Z.to_nat iters)) j = Some j).
  { rewrite nth_error_seq.
    destruct (Nat.ltb_spec j (Z.to_nat iters)); [reflexivity|lia]. }
  rewrite (map_nth_error _ _ _ Hnth). unfold block. rewrite map_map.
  reflexivity.
Qed.

Lemma SimulateSample_means_of_blocks_witness :
  negative (SignedFloat false 7) = false /\ (0 <= 2)%Z /\ (0 <= 3)%Z /\
  exists xbars : list npfloat,
    SimulateSample counting_gauss 90 (SignedFloat false 7) 2 3 = Array xbars /\
    Z.of_nat (length xbars) = 3%Z /\
    forall j : nat, (Z.of_nat j < 3)%Z ->
      nth_error xbars j
      = Some (np_mean
                (map Finite
                   (block (counting_gauss 90 (real_of (SignedFloat false 7)))
                      2 j))).
Proof.
  assert (Hsigma : negative (SignedFloat false 7) = false) by reflexivity.
  assert (Hn : (0 <= 2)%Z) by discriminate.
  assert (Hiters : (0 <= 3)%Z) by discriminate.
  split; [exact Hsigma|]. split; [exact Hn|]. split; [exact Hiters|].
  apply (SimulateSample_means_of_blocks counting_gauss 90
           (SignedFloat false 7) 2 3 Hsigma Hn Hiters).
Defined.



(** A loop of [Estimate4] on a size that is not negative appends one
    reciprocal of a mean per index. *)
Lemma Estimate4_loop_runs (exponential : R -> nat -> R) (n : Z) :
  (0 <= n)%Z ->
  forall (js : list nat) (ls : list npfloat_inf) (first : nat),
    Estimate4_loop exponential 2 n js ls first
    = Array (ls ++
             map (fun j => reciprocal
                    (np_mean
                       (map (fun i => Finite
                               (exponential (1 / 2)
                                  (first + j * Z.to_nat n + i)%nat))
                            (seq 0 (Z.to_nat n)))))
                 (seq 0 (length js))).
Proof.
  intros Hn js. induction js as [|x js IH]; intros ls first.
  - cbn [Estimate4_loop length seq map]. rewrite app_nil_r. reflexivity.
  - cbn [Estimate4_loop]. unfold np_random_exponential.
    destruct (Rlt_dec (1 / 2) 0) as [Hlt|_]; [lra|].
    destruct (Z.ltb_spec n 0) as [Hneg|_]; [lia|].
    rewrite IH, length_map, length_seq, <- app_assoc.
    cbn [app length seq map]. rewrite <- seq_shift, map_map.
    do 2 f_equal. f_equal.
    + do 2 f_equal. apply map_ext. intros i. do 2 f_equal. lia.
    + apply map_ext. intros j. do 2 f_equal. apply map_ext. intros i.
      do 2 f_equal. lia.
Qed.

Lemma sum_of_positive (rs : list R) :
  rs <> [] -> Forall (fun x => 0 < x) rs -> 0 < sum_of (fun x => x) rs.
Proof.
  intros Hne Hall. induction Hall as [|x rs Hx Hall IH]; [congruence|].
  rewrite sum_of_cons. destruct rs as [|y rs].
  - simpl. lra.
  - assert (0 < sum_of (fun x => x) (y :: rs)) by (apply IH; discriminate).
    lra.
Qed.

(** X22: in exact real arithmetic, with samples of [n >= 1] positive
    draws, [Estimate4] returns
    [iters] estimates; estimate [j] is a positive number [L], the
    reciprocal of the mean of draws [j * n] to [j * n + n - 1]:
    [L * (x_1 + ... + x_n) = n]. *)
Theorem Estimate4_reciprocal_means :
  forall (exponential : R -> nat -> R) (n iters : Z),
    (forall k, 0 < exponential (1 / 2) k) ->
    (1 <= n)%Z -> (0 <= iters)%Z ->
    exists l_estimates : list npfloat_inf,
      Estimate4 exponential n iters = Array l_estimates /\
      Z.of_nat (length l_estimates) = iters /\
      forall j : nat, (Z.of_nat j < iters)%Z ->
        exists L : R,
          nth_error l_estimates j = Some (Num (Finite L)) /\
          0 < L /\
          L * sum_of (fun x => x) (block (exponential (1 / 2)) n j) = IZR n.
Proof.
  intros exponential n iters Hpos Hn Hiters.
  eexists. split.
  { unfold Estimate4. cbv zeta. apply Estimate4_loop_runs. lia. }
  cbn [app]. unfold range at 1 2. rewrite length_seq.
  split; [rewrite length_map, length_seq; lia|].
  intros j Hj.
  assert (Hnth : nth_error (seq 0 (Z.to_nat iters)) j = Some j).
  { rewrite nth_error_seq.
    destruct (Nat.ltb_spec j (Z.to_nat iters)); [reflexivity|lia]. }
  rewrite (map_nth_error _ _ _ Hnth). cbn [Nat.add].
  rewrite <- (map_map (fun i => exponential (1 / 2) (j * Z.to_nat n + i)%nat)
                      Finite).
  fold (block (exponential (1 / 2)) n j).
  set (rs := block (exponential (1 / 2)) n j).
  assert (Hne : rs <> []) by (apply block_not_nil, Hn).
  assert (Hsum : 0 < sum_of (fun x => x) rs).
  { apply sum_of_positive; [exact Hne|].
    unfold rs, block. apply Forall_forall. intros x Hx.
    apply in_map_iff in Hx. destruct Hx as (i & <- & _). apply Hpos. }
  assert (HINR : INR (length rs) = IZR n).
  { unfold rs. rewrite length_block, INR_IZR_INZ, Z2Nat.id by lia.
    reflexivity. }
  assert (Hn0 : 0 < IZR n) by (apply IZR_lt; lia).
  rewrite np_mean_reals by exact Hne. rewrite HINR.
  unfold reciprocal.
  destruct (Req_dec_T (sum_of (fun x => x) rs / IZR n) 0) as [Hz|Hnz].
  - exfalso.
    assert (0 < sum_of (fun x => x) rs / IZR n)
      by (apply Rdiv_lt_0_compat; assumption).
    lra.
  - exists (1 / (sum_of (fun x => x) rs / IZR n)).
    split; [reflexivity|]. split.
    + apply Rdiv_lt_0_compat; [lra|].
      apply Rdiv_lt_0_compat; assumption.
    + field. split; lra.
Qed.

Lemma Estimate4_reciprocal_means_witness :
  (forall k, 0 < unit_draws (1 / 2) k) /\ (1 <= 10)%Z /\ (0 <= 3)%Z /\
  exists l_estimates : list npfloat_inf,
    Estimate4 unit_draws 10 3 = Array l_estimates /\
    Z.of_nat (length l_estimates) = 3%Z /\
    forall j : nat, (Z.of_nat j < 3)%Z ->
      exists L : R,
        nth_error l_estimates j = Some (Num (Finite L)) /\
        0 < L /\
        L * sum_of (fun x => x) (block (unit_draws (1 / 2)) 10 j) = IZR 10.
Proof.
  assert (Hpos : forall k, 0 < unit_draws (1 / 2) k)
    by (intros k; unfold unit_draws; lra).
  assert (Hn : (1 <= 10)%Z) by discriminate.
  assert (Hiters : (0 <= 3)%Z) by discriminate.
  split; [exact Hpos|]. split; [exact Hn|]. split; [exact Hiters|].
  apply (Estimate4_reciprocal_means unit_draws 10 3 Hpos Hn Hiters).
Defined.

(** X23: [Estimate4] raises [ValueError] exactly when the loop runs at
    least once on a negative size: [iters >= 1] and [n < 0].  On empty
    samples ([n = 0]) every estimate is [nan]. *)
Theorem Estimate4_edge_sizes :
  forall (exponential : R -> nat -> R) (n iters : Z),
    (Estimate4 exponential n iters = ValueError <->
     ((1 <= iters)%Z /\ (n < 0)%Z)) /\
    (n = 0%Z ->
     Estimate4 exponential n iters
     = Array (repeat (Num NaN) (Z.to_nat iters))).
Proof.
  intros exponential n iters. split; [split|].
  - intros Hraise.
    destruct (Z.lt_ge_cases iters 1) as [Hlt|Hge].
    + unfold Estimate4, range in Hraise.
      replace (Z.to_nat iters) with O in Hraise by lia. discriminate.
    + split; [lia|].
      destruct (Z.lt_ge_cases n 0) as [Hn|Hn]; [exact Hn|].
      unfold Estimate4 in Hraise. cbv zeta in Hraise.
      rewrite Estimate4_loop_runs in Hraise by lia. discriminate.
  - intros (Hiters & Hn).
    destruct (range_cons iters Hiters) as [js Hjs].
    unfold Estimate4. cbv zeta. rewrite Hjs. cbn [Estimate4_loop].
    unfold np_random_exponential.
    destruct (Rlt_dec (1 / 2) 0) as [_|_]; [reflexivity|].
    destruct (Z.ltb_spec n 0) as [_|Hge]; [reflexivity|lia].
  - intros ->. unfold Estimate4. cbv zeta.
    rewrite Estimate4_loop_runs by lia. cbn [app].
    unfold range. rewrite length_seq. f_equal.
    transitivity (map (fun _ : nat => Num NaN) (seq 0 (Z.to_nat iters))).
    + apply map_ext. intros j. reflexivity.
    + rewrite map_const, length_seq. reflexivity.
Qed.

End ExperimentFacts.

(** ** The event simulator on binary64 floats *)

Module Simulator64Facts.

Import Stdlib.Floats.Floats.
Import Lqa.
Local Open Scope Q_scope.

Section Runs64.

Variable expovariate : float -> nat -> float.
Variable lam : float.

(** Started after [k] counted draws, the loop runs to the first draw that
    takes the clock over 1. *)
Lemma loop64_runs_to_crossing (fuel : nat) :
  forall k m,
    (k <= m < k + fuel)%nat ->
    (forall j, (k < j <= m)%nat ->
       PrimFloat.ltb 1 (Simulator64.clock expovariate lam j) = false) ->
    PrimFloat.ltb 1 (Simulator64.clock expovariate lam (S m)) = true ->
    Simulator64.SimulateGame_loop expovariate lam fuel (Z.of_nat k)
      (Simulator64.clock expovariate lam k) k
    = Some (Z.of_nat m, S m).
Proof.
  induction fuel as [|fuel IH]; intros k m Hkm Hbelow Hover.
  - lia.
  - cbn [Simulator64.SimulateGame_loop].
    change (PrimFloat.add (Simulator64.clock expovariate lam k)
                          (expovariate lam k))
      with (Simulator64.clock expovariate lam (S k)).
    destruct (Nat.eq_dec k m) as [->|Hne].
    + rewrite Hover. reflexivity.
    + rewrite (Hbelow (S k)) by lia.
      replace (Z.of_nat k + 1)%Z with (Z.of_nat (S k)) by lia.
      apply IH; [lia| |exact Hover].
      intros j Hj. apply Hbelow. lia.
Qed.

(** A loop that returns has stopped at the first draw, after those already
    made, that takes the clock over 1. *)
Lemma loop64_returns_at_crossing (fuel : nat) :
  forall (k : nat) (L : Z) (d : nat),
    Simulator64.SimulateGame_loop expovariate lam fuel (Z.of_nat k)
      (Simulator64.clock expovariate lam k) k = Some (L, d) ->
    Z.of_nat d = (L + 1)%Z /\
    (k < d)%nat /\
    PrimFloat.ltb 1 (Simulator64.clock expovariate lam d) = true /\
    forall j, (k < j < d)%nat ->
      PrimFloat.ltb 1 (Simulator64.clock expovariate lam j) = false.
Proof.
  induction fuel as [|fuel IH]; intros k L d;
    cbn [Simulator64.SimulateGame_loop].
  - discriminate.
  - change (PrimFloat.add (Simulator64.clock expovariate lam k)
                          (expovariate lam k))
      with (Simulator64.clock expovariate lam (S k)).
    destruct (PrimFloat.ltb 1 (Simulator64.clock expovariate lam (S k))) eqn:E.
    + intros [= <- <-].
      split; [lia|]. split; [lia|]. split; [exact E|].
      intros j Hj. lia.
    + replace (Z.of_nat k + 1)%Z with (Z.of_nat (S k)) by lia.
      intros H. apply IH in H. destruct H as (HL & Hk & Hover & Hbelow).
      split; [exact HL|]. split; [lia|]. split; [exact Hover|].
      intros j Hj.
      destruct (Nat.eq_dec j (S k)) as [->|Hne]; [exact E|].
      apply Hbelow. lia.
Qed.

(** Either the clock stays within 1 up to draw [n], or there is a first
    draw that takes it over. *)
Lemma first_crossing64 (n : nat) :
  (forall j, (j <= n)%nat ->
     PrimFloat.ltb 1 (Simulator64.clock expovariate lam j) = false) \/
  (exists m, (m < n)%nat /\
     PrimFloat.ltb 1 (Simulator64.clock expovariate lam (S m)) = true /\
     forall j, (j <= m)%nat ->
       PrimFloat.ltb 1 (Simulator64.clock expovariate lam j) = false).
Proof.
  induction n as [|n [IH|IH]].
  - left. intros j Hj. replace j with O by lia. reflexivity.
  - destruct (PrimFloat.ltb 1 (Simulator64.clock expovariate lam (S n))) eqn:E.
    + right. exists n. split; [lia|]. split; [exact E|exact IH].
    + left. intros j Hj.
      destruct (Nat.eq_dec j (S n)) as [->|Hne]; [exact E|].
      apply IH. lia.
  - right. destruct IH as (m & Hm & Hover & Hbelow).
    exists m. split; [lia|]. split; [exact Hover|exact Hbelow].
Qed.

(** Once the clock has gone past 1 the run returns, with any fuel that
    covers the draws. *)
Lemma run64_returns_at_crossing (n : nat) :
  PrimFloat.ltb 1 (Simulator64.clock expovariate lam n) = true ->
  exists m, (m < n)%nat /\
    PrimFloat.ltb 1 (Simulator64.clock expovariate lam (S m)) = true /\
    (forall j, (j <= m)%nat ->
       PrimFloat.ltb 1 (Simulator64.clock expovariate lam j) = false) /\
    forall fuel, (S m <= fuel)%nat ->
      Simulator64.SimulateGame_run expovariate lam fuel
      = Some (Z.of_nat m, S m).
Proof.
  intros Hn.
  destruct (first_crossing64 n) as [Hall|(m & Hm & Hover & Hbelow)].
  - rewrite (Hall n (le_n n)) in Hn. discriminate.
  - exists m. split; [exact Hm|]. split; [exact Hover|].
    split; [exact Hbelow|].
    intros fuel Hfuel. unfold Simulator64.SimulateGame_run.
    apply (loop64_runs_to_crossing fuel O m); [lia| |exact Hover].
    intros j Hj. apply Hbelow. lia.
Qed.

Lemma SimulateGame64_run_of (fuel : nat) (L : Z) :
  Simulator64.SimulateGame expovariate lam fuel = Some L ->
  exists d, Simulator64.SimulateGame_run expovariate lam fuel = Some (L, d).
Proof.
  unfold Simulator64.SimulateGame.
  destruct (Simulator64.SimulateGame_run expovariate lam fuel) as [[L' d]|];
    cbn [option_map fst]; [|discriminate].
  intros [= <-]. exists d. reflexivity.
Qed.

End Runs64.



(** Comparing two floats as equal does not depend on the side. *)
Lemma SFcompare_Eq_sym (f : spec_float) (m2 : positive) (e2 : Z) :
  SFcompare f (S754_finite false m2 e2) = Some Eq ->
  SFcompare (S754_finite false m2 e2) f = Some Eq.
Proof.
  destruct f as [s|s| |s m e]; cbn [SFcompare].
  - destruct s; discriminate.
  - destruct s; discriminate.
  - discriminate.
  - destruct s; [discriminate|].
    rewrite (Z.compare_antisym e e2).
    change (Pos.compare_cont Eq m2 m) with (Pos.compare m2 m).
    change (Pos.compare_cont Eq m m2) with (Pos.compare m m2).
    rewrite (Pos.compare_antisym m m2).
    destruct (Z.compare e e2); cbn [CompOpp]; try discriminate.
    destruct (Pos.compare m m2); cbn [CompOpp]; try discriminate.
    reflexivity.
Qed.

(** A clock equal to 1.0 is not above 1.0. *)
Lemma clock_at_1_not_over (x : float) :
  PrimFloat.eqb x 1 = true -> PrimFloat.ltb 1 x = false.
Proof.
  rewrite FloatAxioms.eqb_spec, FloatAxioms.ltb_spec.
  assert (H1 : Prim2SF 1 = S754_finite false 4503599627370496 (-52))
    by (vm_compute; reflexivity).
  rewrite H1. clear H1. unfold SFeqb, SFltb.
  generalize 4503599627370496%positive (-52)%Z. intros m2 e2.
  destruct (SFcompare (Prim2SF x) (S754_finite false m2 e2)) as [[| |]|] eqn:E;
    try discriminate.
  intros _. rewrite (SFcompare_Eq_sym _ _ _ E). reflexivity.
Qed.

(** The exact values of the gaps of the fixed generators. *)
Lemma exact_one : Simulator64.exact 1 == 1.
Proof. vm_compute. reflexivity. Qed.

Lemma exact_tiny : Simulator64.exact 0x1p-60 == 1 # 1152921504606846976.
Proof. vm_compute. reflexivity. Qed.

Lemma exact_five : Simulator64.exact 5 == 5.
Proof. vm_compute. reflexivity. Qed.




Lemma crossing_gaps_positive (lam : float) :
  Simulator.positive_gaps
    (Simulator64.exact_gaps Simulator64.crossing_gaps lam) 0.
Proof.
  intros k. unfold Simulator64.exact_gaps, Simulator64.crossing_gaps.
  destruct k as [|[|k]];
    [rewrite exact_one|rewrite exact_tiny|rewrite exact_five]; reflexivity.
Qed.

Lemma crossing_gaps_elapsed (lam : float) (n : nat) :
  Simulator.elapsed
    (Simulator64.exact_gaps Simulator64.crossing_gaps lam) 0 (S (S n))
  == 1 + (1 # 1152921504606846976) + inject_Z (Z.of_nat n) * 5.
Proof.
  induction n as [|n IH].
  - cbn [Simulator.elapsed Simulator64.exact_gaps Simulator64.crossing_gaps].
    rewrite exact_one, exact_tiny. ring.
  - change (Simulator.elapsed
              (Simulator64.exact_gaps Simulator64.crossing_gaps lam) 0
              (S (S (S n))))
      with (Simulator.elapsed
              (Simulator64.exact_gaps Simulator64.crossing_gaps lam) 0
              (S (S n))
            + Simulator64.exact 5).
    rewrite IH, exact_five, Nat2Z.inj_succ. unfold Z.succ.
    rewrite inject_Z_plus. ring.
Qed.

Lemma crossing_gaps_unbounded (lam : float) :
  Simulator.unbounded_sums
    (Simulator64.exact_gaps Simulator64.crossing_gaps lam) 0.
Proof.
  intros B. destruct (SimulatorFacts.Q_below_nat B) as [n Hn].
  exists (S (S n)). rewrite crossing_gaps_elapsed.
  assert (0 <= inject_Z (Z.of_nat n)).
  { change 0 with (inject_Z 0). rewrite <- Zle_Qle. lia. }
  lra.
Qed.

(** Runs of the fixed generators on the binary64 clock. *)
Example crossing_gaps_run :
  Simulator64.SimulateGame_run Simulator64.crossing_gaps 2 3
  = Some (2%Z, 3%nat).
Proof. vm_compute. reflexivity. Qed.

Example tenth_gaps_run :
  Simulator64.SimulateGame_run Simulator64.tenth_gaps 2 11
  = Some (10%Z, 11%nat).
Proof. vm_compute. reflexivity. Qed.

Example absorbed_gaps_run :
  Simulator64.SimulateGame_run Simulator64.absorbed_gaps 2 1000 = None.
Proof. vm_compute. reflexivity. Qed.




(** C9, as the specification words it: for positive gaps with unbounded
    partial sums [SimulateGame] returns the largest [k] with
    [g_1 + ... + g_k <= 1.0].  On the clock of the code it does not: with
    the gaps 1.0, 2^-60, 5.0, 5.0, ... the largest such [k] is 1, and the
    code returns 2, because 1.0 + 2^-60 rounds to 1.0. *)
Lemma SimulateGame_crossing_gaps_returns_2 :
  Simulator.positive_gaps
    (Simulator64.exact_gaps Simulator64.crossing_gaps 2) 0 /\
  Simulator.unbounded_sums
    (Simulator64.exact_gaps Simulator64.crossing_gaps 2) 0 /\
  Simulator.elapsed
    (Simulator64.exact_gaps Simulator64.crossing_gaps 2) 0 1 <= 1 /\
  (forall j,
     Simulator.elapsed
       (Simulator64.exact_gaps Simulator64.crossing_gaps 2) 0 j <= 1 ->
     (j <= 1)%nat) /\
  forall fuel, (3 <= fuel)%nat ->
    Simulator64.SimulateGame Simulator64.crossing_gaps 2 fuel = Some 2%Z.
Proof.
  split; [apply crossing_gaps_positive|].
  split; [apply crossing_gaps_unbounded|].
  split.
  { cbn [Simulator.elapsed Simulator64.exact_gaps Simulator64.crossing_gaps].
    rewrite exact_one. discriminate. }
  split.
  { intros j Hj. destruct j as [|[|n]]; [lia|lia|]. exfalso.
    rewrite crossing_gaps_elapsed in Hj.
    assert (0 <= inject_Z (Z.of_nat n)).
    { change 0 with (inject_Z 0). rewrite <- Zle_Qle. lia. }
    assert (0 < 1 # 1152921504606846976) by reflexivity.
    lra. }
  intros fuel Hfuel. unfold Simulator64.SimulateGame.
  assert (Hrun : Simulator64.SimulateGame_run Simulator64.crossing_gaps 2 fuel
                 = Some (2%Z, 3%nat)).
  { unfold Simulator64.SimulateGame_run.
    apply (loop64_runs_to_crossing Simulator64.crossing_gaps 2 fuel 0 2);
      [lia| |vm_compute; reflexivity].
    intros j Hj. assert (Hc : j = 1%nat \/ j = 2%nat) by lia.
    destruct Hc as [-> | ->]; vm_compute; reflexivity. }
  rewrite Hrun. reflexivity.
Qed.

(** C9, amended.  In exact arithmetic, for positive gaps with unbounded
    partial sums, [SimulateGame] returns exactly the largest [k] with
    [g_1 + ... + g_k <= 1.0].  On the binary64 clock of the code (each
    [t += gap] rounded to a double) it returns, whenever the accumulated
    time exceeds 1.0 after some draw, the largest [k] such that the
    accumulated time has not exceeded 1.0 after any of the first [k] draws.
    In both, a gap that brings the accumulated time to exactly 1.0 is
    counted and one more gap is drawn after it: [k + 1] draws are made. *)
Theorem SimulateGame_counts_draws_before_crossing :
  (forall (expovariate : Q -> nat -> Q) (lam : Q),
     Simulator.positive_gaps expovariate lam ->
     Simulator.unbounded_sums expovariate lam ->
     exists k : nat,
       Simulator.elapsed expovariate lam k <= 1 /\
       (forall j, Simulator.elapsed expovariate lam j <= 1 -> (j <= k)%nat) /\
       (forall j, Simulator.elapsed expovariate lam j == 1 ->
          (j <= k)%nat /\ (j < S k)%nat) /\
       forall fuel, (S k <= fuel)%nat ->
         Simulator.SimulateGame_run expovariate lam fuel
         = Some (Z.of_nat k, S k) /\
         Simulator.SimulateGame expovariate lam fuel = Some (Z.of_nat k)) /\
  (forall (expovariate : float -> nat -> float) (lam : float) (n : nat),
     PrimFloat.ltb 1 (Simulator64.clock expovariate lam n) = true ->
     exists k : nat,
       (forall j, (j <= k)%nat ->
          PrimFloat.ltb 1 (Simulator64.clock expovariate lam j) = false) /\
       PrimFloat.ltb 1 (Simulator64.clock expovariate lam (S k)) = true /\
       (forall k',
          (forall j, (j <= k')%nat ->
             PrimFloat.ltb 1 (Simulator64.clock expovariate lam j) = false) ->
          (k' <= k)%nat) /\
       (forall j, (j <= S k)%nat ->
          PrimFloat.eqb (Simulator64.clock expovariate lam j) 1 = true ->
          (j <= k)%nat /\ (j < S k)%nat) /\
       forall fuel, (S k <= fuel)%nat ->
         Simulator64.SimulateGame_run expovariate lam fuel
         = Some (Z.of_nat k, S k) /\
         Simulator64.SimulateGame expovariate lam fuel = Some (Z.of_nat k)).
Proof.
  split.
  - intros expovariate lam Hpos Hunb.
    destruct (Hunb 1) as [n Hn].
    destruct (SimulatorFacts.run_returns_at_crossing expovariate lam n Hn)
      as (m & _ & Hover & Hbelow & Hrun).
    assert (Hmax : forall j,
              Simulator.elapsed expovariate lam j <= 1 -> (j <= m)%nat).
    { intros j Hj. destruct (Nat.le_gt_cases j m) as [Hle|Hgt]; [exact Hle|].
      exfalso. apply (Qlt_not_le _ _ Hover).
      destruct (Nat.eq_dec j (S m)) as [<-|Hne]; [exact Hj|].
      apply Qlt_le_weak. apply Qlt_le_trans with (2 := Hj).
      apply (SimulatorFacts.time_increasing expovariate lam Hpos). lia. }
    exists m. split; [apply Hbelow; lia|]. split; [exact Hmax|]. split.
    + intros j Hj.
      assert (Hle : (j <= m)%nat) by (apply Hmax; rewrite Hj; apply Qle_refl).
      split; [exact Hle|lia].
    + intros fuel Hfuel. split; [apply Hrun, Hfuel|].
      unfold Simulator.SimulateGame. rewrite (Hrun fuel Hfuel). reflexivity.
  - intros expovariate lam n Hn.
    destruct (run64_returns_at_crossing expovariate lam n Hn)
      as (m & _ & Hover & Hbelow & Hrun).
    exists m. split; [exact Hbelow|]. split; [exact Hover|]. split.
    + intros k' Hk'.
      destruct (Nat.le_gt_cases k' m) as [Hle|Hgt]; [exact Hle|].
      rewrite (Hk' (S m)) in Hover by lia. discriminate.
    + split.
      * intros j Hj Hone.
        assert (Hle : (j <= m)%nat).
        { destruct (Nat.eq_dec j (S m)) as [->|Hne]; [|lia].
          rewrite (clock_at_1_not_over _ Hone) in Hover. discriminate. }
        split; [exact Hle|lia].
      * intros fuel Hfuel. split; [apply Hrun, Hfuel|].
        unfold Simulator64.SimulateGame. rewrite (Hrun fuel Hfuel).
        reflexivity.
Qed.

(** The binary64 part at the gaps 1.0, 2^-60, 5.0, ...: the clock first
    exceeds 1 at draw 3. *)
Lemma SimulateGame_counts_draws_before_crossing_witness :
  PrimFloat.ltb 1 (Simulator64.clock Simulator64.crossing_gaps 2 3) = true /\
  exists k : nat,
    (forall j, (j <= k)%nat ->
       PrimFloat.ltb 1 (Simulator64.clock Simulator64.crossing_gaps 2 j)
       = false) /\
    PrimFloat.ltb 1 (Simulator64.clock Simulator64.crossing_gaps 2 (S k))
    = true /\
    (forall k',
       (forall j, (j <= k')%nat ->
          PrimFloat.ltb 1 (Simulator64.clock Simulator64.crossing_gaps 2 j)
          = false) ->
       (k' <= k)%nat) /\
    (forall j, (j <= S k)%nat ->
       PrimFloat.eqb (Simulator64.clock Simulator64.crossing_gaps 2 j) 1 = true ->
       (j <= k)%nat /\ (j < S k)%nat) /\
    forall fuel, (S k <= fuel)%nat ->
      Simulator64.SimulateGame_run Simulator64.crossing_gaps 2 fuel
      = Some (Z.of_nat k, S k) /\
      Simulator64.SimulateGame Simulator64.crossing_gaps 2 fuel
      = Some (Z.of_nat k).
Proof.
  assert (Hover : PrimFloat.ltb 1
                    (Simulator64.clock Simulator64.crossing_gaps 2 3) = true)
    by (vm_compute; reflexivity).
  split; [exact Hover|].
  apply (proj2 SimulateGame_counts_draws_before_crossing
           Simulator64.crossing_gaps 2%float 3%nat Hover).
Defined.

(** X1: whenever [SimulateGame] returns, on the binary64 clock of the code,
    it has drawn exactly one more gap than it counted, and that last draw
    is the first one after which the accumulated time (each [t += gap]
    rounded to a double) exceeds 1.0. *)
Theorem SimulateGame_binary64_returns_first_crossing :
  forall (expovariate : float -> nat -> float) (lam : float)
         (fuel : nat) (L : Z) (d : nat),
    Simulator64.SimulateGame_run expovariate lam fuel = Some (L, d) ->
    Z.of_nat d = (L + 1)%Z /\
    PrimFloat.ltb 1 (Simulator64.clock expovariate lam d) = true /\
    forall j, (j < d)%nat ->
      PrimFloat.ltb 1 (Simulator64.clock expovariate lam j) = false.
Proof.
  intros expovariate lam fuel L d Hrun.
  destruct (loop64_returns_at_crossing expovariate lam fuel 0 L d Hrun)
    as (HL & _ & Hover & Hbelow).
  split; [exact HL|]. split; [exact Hover|].
  intros j Hj. destruct j as [|j]; [reflexivity|].
  apply Hbelow. lia.
Qed.

Lemma SimulateGame_binary64_returns_first_crossing_witness :
  Simulator64.SimulateGame_run Simulator64.tenth_gaps 2 11
  = Some (10%Z, 11%nat) /\
  Z.of_nat 11 = (10 + 1)%Z /\
  PrimFloat.ltb 1 (Simulator64.clock Simulator64.tenth_gaps 2 11) = true /\
  forall j, (j < 11)%nat ->
    PrimFloat.ltb 1 (Simulator64.clock Simulator64.tenth_gaps 2 j) = false.
Proof.
  assert (Hrun : Simulator64.SimulateGame_run Simulator64.tenth_gaps 2 11
                 = Some (10%Z, 11%nat)) by (vm_compute; reflexivity).
  split; [exact Hrun|].
  apply (SimulateGame_binary64_returns_first_crossing
           Simulator64.tenth_gaps 2%float 11%nat 10%Z 11%nat Hrun).
Defined.

(** [nan] in the specification of the doubles. *)
Lemma is_nan_Prim2SF (x : float) :
  PrimFloat.is_nan x = true -> Prim2SF x = S754_nan.
Proof. intros H. unfold Prim2SF. rewrite H. reflexivity. Qed.

Lemma Prim2SF_is_nan (x : float) :
  Prim2SF x = S754_nan -> PrimFloat.is_nan x = true.
Proof.
  intros H. unfold PrimFloat.is_nan.
  rewrite FloatAxioms.eqb_spec, H. reflexivity.
Qed.

(** Adding [nan] gives [nan], on either side. *)
Lemma add_nan_r (x y : float) :
  PrimFloat.is_nan y = true -> PrimFloat.is_nan (x + y) = true.
Proof.
  intros Hy. apply Prim2SF_is_nan.
  rewrite FloatAxioms.add_spec, (is_nan_Prim2SF y Hy).
  unfold SF64add. destruct (Prim2SF x) as [s|s| |s m e]; reflexivity.
Qed.

Lemma add_nan_l (x y : float) :
  PrimFloat.is_nan x = true -> PrimFloat.is_nan (x + y) = true.
Proof.
  intros Hx. apply Prim2SF_is_nan.
  rewrite FloatAxioms.add_spec, (is_nan_Prim2SF x Hx). reflexivity.
Qed.

(** [nan] is not above 1.0. *)
Lemma nan_not_over (x : float) :
  PrimFloat.is_nan x = true -> PrimFloat.ltb 1 x = false.
Proof.
  intros Hx. rewrite FloatAxioms.ltb_spec, (is_nan_Prim2SF x Hx).
  assert (H1 : Prim2SF 1 = S754_finite false 4503599627370496 (-52))
    by (vm_compute; reflexivity).
  rewrite H1. reflexivity.
Qed.

(** X2: a [nan] gap ends nothing.  If a drawn gap is [nan] (as every gap
    is for a rate that is [nan]) before the accumulated time has exceeded
    1.0, the clock is [nan] from then on, no comparison [t > 1] holds, and
    [SimulateGame] never returns. *)
Theorem SimulateGame_nan_gap_never_returns :
  forall (expovariate : float -> nat -> float) (lam : float) (n : nat),
    (forall j, (j <= n)%nat ->
       PrimFloat.ltb 1 (Simulator64.clock expovariate lam j) = false) ->
    PrimFloat.is_nan (expovariate lam n) = true ->
    forall fuel, Simulator64.SimulateGame expovariate lam fuel = None.
Proof.
  intros expovariate lam n Hbelow Hnan fuel.
  assert (Hclock : forall k,
            PrimFloat.is_nan (Simulator64.clock expovariate lam (S n + k))
            = true).
  { induction k as [|k IH].
    - rewrite Nat.add_0_r. cbn [Simulator64.clock]. apply add_nan_r, Hnan.
    - replace (S n + S k)%nat with (S (S n + k)) by lia.
      cbn [Simulator64.clock]. apply add_nan_l. exact IH. }
  assert (Hnever : forall j,
            PrimFloat.ltb 1 (Simulator64.clock expovariate lam j) = false).
  { intros j. destruct (Nat.le_gt_cases j n) as [Hle|Hgt].
    - apply Hbelow, Hle.
    - replace j with (S n + (j - S n))%nat by lia.
      apply nan_not_over, Hclock. }
  destruct (Simulator64.SimulateGame expovariate lam fuel) as [L|] eqn:E;
    [|reflexivity].
  destruct (SimulateGame64_run_of expovariate lam fuel L E) as [d Hrun].
  destruct (loop64_returns_at_crossing expovariate lam fuel 0 L d Hrun)
    as (_ & _ & Hover & _).
  rewrite Hnever in Hover. discriminate.
Qed.

Lemma SimulateGame_nan_gap_never_returns_witness :
  (forall j, (j <= 0)%nat ->
     PrimFloat.ltb 1 (Simulator64.clock Simulator64.nan_gaps PrimFloat.nan j)
     = false) /\
  PrimFloat.is_nan (Simulator64.nan_gaps PrimFloat.nan 0) = true /\
  Simulator64.SimulateGame Simulator64.nan_gaps PrimFloat.nan 50 = None.
Proof.
  assert (Hbelow : forall j, (j <= 0)%nat ->
            PrimFloat.ltb 1
              (Simulator64.clock Simulator64.nan_gaps PrimFloat.nan j)
            = false).
  { intros j Hj. replace j with O by lia. reflexivity. }
  assert (Hnan : PrimFloat.is_nan (Simulator64.nan_gaps PrimFloat.nan 0) = true)
    by reflexivity.
  split; [exact Hbelow|]. split; [exact Hnan|].
  apply (SimulateGame_nan_gap_never_returns Simulator64.nan_gaps
           PrimFloat.nan 0 Hbelow Hnan 50).
Defined.

End Simulator64Facts.

(** ** The root mean squared error on binary64 floats *)

Module Stats64Facts.

Import Stdlib.Floats.Floats.


(** A square beyond the doubles raises. *)
Example RMSE_overflow :
  Stats64.RMSE [0x1p+600]%float 0%float = Some Stats64.OverflowError.
Proof. vm_compute. reflexivity. Qed.

End Stats64Facts.
